(** * Video ingestion pipeline: capture loops, bounded frame queue,
      batching consumer and alert tasks

    A shallow embedding of [src/camera/stream_manager.py] and of the alert
    and report helpers of [src/workers/tasks.py], with the properties the
    specification states about them.
    The second half follows the frames further: the callback of
    [src/main.py], the camera URLs of [src/config.py], the face detector
    of [src/models/face_detector.py], the compliance rates of
    [src/database/models.py] and [src/web_app.py], and the MQTT client of
    [src/mqtt/client.py].

    Conventions of the embedding:
    - Python [int] is [Z] (unbounded); [time.time()] stamps and the other
      floats are exact rationals [Q];
    - a Python exception is an explicit outcome ([None], or a constructor of
      an outcome type), and every [try/except] of the source is written out;
    - a thread is a step function: one call is one iteration of its [while]
      loop, and what the outside world answers during that iteration (clock,
      camera, connection) is an argument of the step. *)

From Stdlib Require Import ZArith QArith Qround Qabs Lia Lqa Sorted Ascii.
From stdpp Require Import base option list strings gmap pretty.

Local Open Scope Z_scope.

(** ** [queue.Queue]: the bounded FIFO of the Python library *)

Module PyQueue.
Section Queue.
Context {A : Type}.

(** [queue.Queue(maxsize)]: a [maxsize <= 0] queue is unbounded. *)
Record Queue := mkQueue { maxsize : Z; items : list A }.

Definition new (maxsize : Z) : Queue := mkQueue maxsize [].

Definition qsize (q : Queue) : Z := Z.of_nat (length (items q)).

(** [Queue.full()]: [0 < maxsize <= qsize]. *)
Definition full (q : Queue) : bool :=
  (0 <? maxsize q) && (maxsize q <=? qsize q).

(** [put_nowait]: [None] is [queue.Full]. *)
Definition put_nowait (q : Queue) (x : A) : option Queue :=
  if full q then None else Some (mkQueue (maxsize q) (items q ++ [x])).

(** [get_nowait]: [None] is [queue.Empty]; the head is the oldest item. *)
Definition get_nowait (q : Queue) : option (A * Queue) :=
  match items q with
  | [] => None
  | x :: rest => Some (x, mkQueue (maxsize q) rest)
  end.

(** The invariant of a bounded queue. *)
Definition within_capacity (q : Queue) : Prop :=
  0 < maxsize q -> qsize q <= maxsize q.

End Queue.
Arguments Queue : clear implicits.
End PyQueue.

Import PyQueue.

(** ** Configuration ([src/config.py]) *)

(** The fields of the global [config] object that the modelled code reads.
    Each one is [int(os.getenv ...)], so any integer can be configured. *)
Record Config := mkConfig {
  MAX_WORKERS : Z;
  QUEUE_SIZE : Z;
  BATCH_SIZE : Z;
  RESIZE_WIDTH : Z;
  RESIZE_HEIGHT : Z;
  ALERT_COOLDOWN : Z;
  MIN_VIOLATIONS_FOR_ALERT : Z;
  TELEGRAM_BOT_TOKEN : option string;
  TELEGRAM_CHAT_ID : option string
}.

(** The defaults written in [config.py]. *)
Definition default_config : Config :=
  {| MAX_WORKERS := 4; QUEUE_SIZE := 100; BATCH_SIZE := 10;
     RESIZE_WIDTH := 640; RESIZE_HEIGHT := 480;
     ALERT_COOLDOWN := 300; MIN_VIOLATIONS_FOR_ALERT := 3;
     TELEGRAM_BOT_TOKEN := None; TELEGRAM_CHAT_ID := None |}.

(** ** Frames *)

(** A decoded image: an opaque payload identifier and its dimensions. *)
Record Image := mkImage { pixels : Z; width : Z; height : Z }.

(** [cv2.resize(frame, (w, h))]. *)
Definition resize (frame : Image) (w h : Z) : Image :=
  {| pixels := pixels frame; width := w; height := h |}.

(** The [frame_data] dict built by the capture loop. *)
Record frame_data := mkFrame {
  frame : Image;
  stream_name : string;
  timestamp : Q;
  frame_number : Z
}.

Abbreviation FrameQueue := (Queue frame_data).

(** ** Enqueue with drop-oldest ([_stream_loop], the [try] around
       [put_nowait]) *)

Inductive enqueue_outcome :=
| Inserted                                   (* the first put_nowait succeeded *)
| InsertedAfterEviction (oldest : frame_data) (* Full, get_nowait, put_nowait *)
| EvictedThenFull (oldest : frame_data)      (* the second put_nowait raised Full,
                                                which [except queue.Empty] lets through *)
| SwallowedEmpty.                            (* Full, then get_nowait raised Empty: pass *)

Definition enqueue (q : FrameQueue) (fd : frame_data) : enqueue_outcome * FrameQueue :=
  match put_nowait q fd with
  | Some q1 => (Inserted, q1)
  | None =>
      match get_nowait q with
      | Some (oldest, q1) =>
          match put_nowait q1 fd with
          | Some q2 => (InsertedAfterEviction oldest, q2)
          | None => (EvictedThenFull oldest, q1)
          end
      | None => (SwallowedEmpty, q)
      end
  end.

(** Whether the frame ended up in the queue. *)
Definition enqueued (o : enqueue_outcome) : bool :=
  match o with Inserted | InsertedAfterEviction _ => true | _ => false end.

(** Whether an older frame was removed from the queue. *)
Definition evicted (o : enqueue_outcome) : option frame_data :=
  match o with
  | InsertedAfterEviction old | EvictedThenFull old => Some old
  | _ => None
  end.

(** ** [VideoStream] *)

Record StreamConfig := mkStreamConfig {
  url : string;
  name : string;
  enabled : bool;
  max_fps : Z;
  reconnect_interval : Z;
  buffer_size : Z
}.

Definition Qltb (x y : Q) : bool := negb (Qle_bool y x).

(** [round(x)] of Python: the integer nearest to [x], ties to the even one. *)
Definition round_half_even (x : Q) : Z :=
  let f := Qfloor x in
  match (x - inject_Z f ?= 1 # 2)%Q with
  | Lt => f
  | Gt => f + 1
  | Eq => if Z.even f then f else f + 1
  end.

Module VideoStream.

(** [cap] and [thread] are handles on the outside world; what they answer
    is given to each iteration as an [iteration_input]. *)
Record t := mk {
  config : StreamConfig;
  running : bool;
  last_frame_time : Q;
  frame_interval : Q;
  frame_skip : Z;
  frame_count : Z
}.

(** [max(1, int(30 / max_fps))].  [30 / max_fps] is a float division and
    [int] truncates toward zero.  The quotient of 30 by an integer is
    either an integer or at least 1/30 away from every integer (and of
    absolute value below 1 when [|max_fps| > 30]), so the rounding of the
    float division never changes its integer part: [int(30 / m)] is
    [Z.quot 30 m]. *)
Definition frame_skip_of (max_fps : Z) : Z := Z.max 1 (Z.quot 30 max_fps).

(** [__init__].  [1.0 / config.max_fps] raises [ZeroDivisionError] when
    [max_fps] is 0: [None]. *)
Definition init (c : StreamConfig) : option t :=
  if max_fps c =? 0 then None
  else Some {| config := c; running := false; last_frame_time := 0%Q;
               frame_interval := (1 / inject_Z (max_fps c))%Q;
               frame_skip := frame_skip_of (max_fps c);
               frame_count := 0 |}.

Definition set_running (b : bool) (s : t) : t :=
  {| config := config s; running := b; last_frame_time := last_frame_time s;
     frame_interval := frame_interval s; frame_skip := frame_skip s;
     frame_count := frame_count s |}.

Definition set_frame_count (n : Z) (s : t) : t :=
  {| config := config s; running := running s; last_frame_time := last_frame_time s;
     frame_interval := frame_interval s; frame_skip := frame_skip s;
     frame_count := n |}.

Definition set_last_frame_time (x : Q) (s : t) : t :=
  {| config := config s; running := running s; last_frame_time := x;
     frame_interval := frame_interval s; frame_skip := frame_skip s;
     frame_count := frame_count s |}.

(** [start] and [stop], without the thread and the capture handle. *)
Definition start (s : t) : t := if running s then s else set_running true s.
Definition stop (s : t) : t := set_running false s.

(** What the outside world answers during one iteration of [_stream_loop]. *)
Record iteration_input := mkInput {
  cap_opened : bool;          (* self.cap and self.cap.isOpened() *)
  connect_ok : bool;          (* what _connect() returns, if it is called *)
  current_time : Q;           (* time.time() *)
  read_result : option Image  (* self.cap.read(): None when ret is false *)
}.

Inductive iteration_outcome :=
| NotConnected                       (* _connect failed: sleep, continue *)
| LoopError                          (* an exception reached the outer handler *)
| FrameSkipped                       (* frame_count % frame_skip != 0 *)
| Throttled                          (* the frame interval has not elapsed *)
| ReadFailed                         (* ret is false *)
| Put (fd : frame_data) (o : enqueue_outcome).

(** One iteration of the body of [while self.running] in [_stream_loop].
    [%] raises [ZeroDivisionError] on a zero [frame_skip] (which [__init__]
    never sets); for the other values [Z.modulo] is Python's [%]. *)
Definition _stream_loop_iteration (cfg : Config) (i : iteration_input)
    (s : t) (q : FrameQueue) : iteration_outcome * t * FrameQueue :=
  if negb (cap_opened i) && negb (connect_ok i) then (NotConnected, s, q)
  else
    let s1 := set_frame_count (frame_count s + 1) s in
    if frame_skip s1 =? 0 then (LoopError, s1, q)
    else if negb (frame_count s1 mod frame_skip s1 =? 0) then (FrameSkipped, s1, q)
    else if Qltb (current_time i - last_frame_time s1) (frame_interval s1)
    then (Throttled, s1, q)
    else
      match read_result i with
      | None => (ReadFailed, s1, q)
      | Some img =>
          let fd := {| frame := resize img (RESIZE_WIDTH cfg) (RESIZE_HEIGHT cfg);
                       stream_name := name (config s1);
                       timestamp := current_time i;
                       frame_number := frame_count s1 |} in
          let '(o, q') := enqueue q fd in
          match o with
          | EvictedThenFull _ =>
              (* the exception reaches the outer handler: last_frame_time
                 is not updated *)
              (Put fd o, s1, q')
          | _ => (Put fd o, set_last_frame_time (current_time i) s1, q')
          end
      end.

(** The frame an iteration left in the queue, if any. *)
Definition enqueued_frame (o : iteration_outcome) : option frame_data :=
  match o with
  | Put fd eo => if enqueued eo then Some fd else None
  | _ => None
  end.

(** The frame an iteration removed from the queue, if any. *)
Definition evicted_frame (o : iteration_outcome) : option frame_data :=
  match o with
  | Put _ eo => evicted eo
  | _ => None
  end.

(** The ratio as the specification words it:
    [round(native_fps / target_fps)], clamped below at 1. *)
Definition spec_frame_skip (native_fps target_fps : Z) : Z :=
  Z.max 1 (round_half_even (inject_Z native_fps / inject_Z target_fps)).

(** A run of the loop of one stream object.  Between two iterations the
    other threads may do anything to the shared queue, so each iteration
    comes with the queue it finds.  The result is the list of outcomes,
    oldest first, and the final stream state. *)
Fixpoint run (cfg : Config) (steps : list (iteration_input * FrameQueue))
    (s : t) : list iteration_outcome * t :=
  match steps with
  | [] => ([], s)
  | (i, q) :: rest =>
      let '(o, s1, _) := _stream_loop_iteration cfg i s q in
      let '(os, s2) := run cfg rest s1 in
      (o :: os, s2)
  end.

(** The iterations that got past the connection check. *)
Definition counted (o : iteration_outcome) : bool :=
  match o with NotConnected => false | _ => true end.

(** The frame numbers this run put in the queue, oldest first. *)
Definition enqueued_numbers (os : list iteration_outcome) : list Z :=
  map frame_number (omap enqueued_frame os).

End VideoStream.

(** ** [StreamManager] *)

(** The [stats] dict. *)
Record Stats := mkStats {
  total_frames : Z;
  processed_frames : Z;
  dropped_frames : Z;
  start_time : Q
}.

(** The registered frame callback: the model keeps whether a call returns
    ([true]) or raises ([false]). *)
Definition Callback := frame_data -> bool.

(** The consumer thread running [_processing_loop], with its local
    [batch_frames] while it is inside the [while] loop. *)
Inductive consumer :=
| NotStarted
| InLoop (batch_frames : list frame_data)
| Exited.

Module StreamManager.

Record t := mk {
  max_workers : Z;
  streams : gmap string VideoStream.t;
  frame_queue : FrameQueue;
  running : bool;
  processing_thread : consumer;
  frame_callback : option Callback;
  stats : Stats;
  (* history, not in the source: the arguments of the calls of
     [_process_batch] and of the frame callback, oldest first *)
  flushed : list (list frame_data);
  dispatched : list frame_data
}.

(** [__init__]; [now] is [time.time()]. *)
Definition init (cfg : Config) (now : Q) : t :=
  {| max_workers := MAX_WORKERS cfg;
     streams := ∅;
     frame_queue := PyQueue.new (QUEUE_SIZE cfg);
     running := false;
     processing_thread := NotStarted;
     frame_callback := None;
     stats := {| total_frames := 0; processed_frames := 0;
                 dropped_frames := 0; start_time := now |};
     flushed := [];
     dispatched := [] |}.

Definition set_streams (x : gmap string VideoStream.t) (m : t) : t :=
  {| max_workers := max_workers m; streams := x; frame_queue := frame_queue m;
     running := running m; processing_thread := processing_thread m;
     frame_callback := frame_callback m; stats := stats m;
     flushed := flushed m; dispatched := dispatched m |}.

Definition set_frame_queue (x : FrameQueue) (m : t) : t :=
  {| max_workers := max_workers m; streams := streams m; frame_queue := x;
     running := running m; processing_thread := processing_thread m;
     frame_callback := frame_callback m; stats := stats m;
     flushed := flushed m; dispatched := dispatched m |}.

Definition set_running (x : bool) (m : t) : t :=
  {| max_workers := max_workers m; streams := streams m; frame_queue := frame_queue m;
     running := x; processing_thread := processing_thread m;
     frame_callback := frame_callback m; stats := stats m;
     flushed := flushed m; dispatched := dispatched m |}.

Definition set_processing_thread (x : consumer) (m : t) : t :=
  {| max_workers := max_workers m; streams := streams m; frame_queue := frame_queue m;
     running := running m; processing_thread := x;
     frame_callback := frame_callback m; stats := stats m;
     flushed := flushed m; dispatched := dispatched m |}.

Definition set_stats (x : Stats) (m : t) : t :=
  {| max_workers := max_workers m; streams := streams m; frame_queue := frame_queue m;
     running := running m; processing_thread := processing_thread m;
     frame_callback := frame_callback m; stats := x;
     flushed := flushed m; dispatched := dispatched m |}.

(** [set_frame_callback]. *)
Definition set_frame_callback (cb : Callback) (m : t) : t :=
  {| max_workers := max_workers m; streams := streams m; frame_queue := frame_queue m;
     running := running m; processing_thread := processing_thread m;
     frame_callback := Some cb; stats := stats m;
     flushed := flushed m; dispatched := dispatched m |}.

Definition add_total_frames (n : Z) (st : Stats) : Stats :=
  {| total_frames := total_frames st + n; processed_frames := processed_frames st;
     dropped_frames := dropped_frames st; start_time := start_time st |}.

Definition add_processed_frames (n : Z) (st : Stats) : Stats :=
  {| total_frames := total_frames st; processed_frames := processed_frames st + n;
     dropped_frames := dropped_frames st; start_time := start_time st |}.

Definition add_dropped_frames (n : Z) (st : Stats) : Stats :=
  {| total_frames := total_frames st; processed_frames := processed_frames st;
     dropped_frames := dropped_frames st + n; start_time := start_time st |}.

(** [add_stream].  A name already present is refused; the constructor of
    [VideoStream] may raise (on [max_fps = 0]), which leaves the manager
    as it was. *)
Definition add_stream (c : StreamConfig) (m : t) : t :=
  match streams m !! name c with
  | Some _ => m
  | None =>
      match VideoStream.init c with
      | None => m
      | Some s =>
          let s' := if running m then VideoStream.start s else s in
          set_streams (<[name c := s']> (streams m)) m
      end
  end.

(** [remove_stream]. *)
Definition remove_stream (stream_name : string) (m : t) : t :=
  match streams m !! stream_name with
  | Some _ => set_streams (delete stream_name (streams m)) m
  | None => m
  end.

(** [start].  The model follows one consumer thread: the thread created
    here replaces the record of an earlier one. *)
Definition start (m : t) : t :=
  if running m then m
  else set_processing_thread (InLoop [])
         (set_streams (VideoStream.start <$> streams m) (set_running true m)).

(** [stop]: clears [running], stops every stream, then waits (at most 5
    seconds) for the consumer, which is a matter of later steps. *)
Definition stop (m : t) : t :=
  if running m then set_streams (VideoStream.stop <$> streams m) (set_running false m)
  else m.

(** The [for] loop of [_process_batch] under its [try]: the frames the
    callback was called on, how many calls returned, and whether one
    raised (which ends the loop). *)
Fixpoint call_each (cb : Callback) (batch : list frame_data)
    : list frame_data * Z * bool :=
  match batch with
  | [] => ([], 0, false)
  | fd :: rest =>
      if cb fd then
        let '(called, n, raised) := call_each cb rest in (fd :: called, n + 1, raised)
      else ([fd], 0, true)
  end.

Definition set_history (fl : list (list frame_data)) (d : list frame_data) (m : t) : t :=
  {| max_workers := max_workers m; streams := streams m; frame_queue := frame_queue m;
     running := running m; processing_thread := processing_thread m;
     frame_callback := frame_callback m; stats := stats m;
     flushed := fl; dispatched := d |}.

(** [_process_batch]. *)
Definition _process_batch (batch : list frame_data) (m : t) : t :=
  let m := set_history (flushed m ++ [batch]) (dispatched m) m in
  match frame_callback m with
  | None => m
  | Some cb =>
      let '(called, n, raised) := call_each cb batch in
      let st := add_processed_frames n (stats m) in
      let st := if raised then add_dropped_frames (Z.of_nat (length batch)) st else st in
      set_stats st (set_history (flushed m) (dispatched m ++ called) m)
  end.

(** One turn of [_processing_loop]: the test of [while self.running],
    then either one iteration of the body or the code after the loop.
    [frame_queue.get(timeout=0.1)] returns the oldest frame, or raises
    [queue.Empty] when the queue stayed empty for the whole wait (a frame
    arriving during the wait is a capture step taken before this one). *)
Definition _processing_loop_step (cfg : Config) (m : t) : t :=
  match processing_thread m with
  | InLoop batch_frames =>
      if running m then
        match get_nowait (frame_queue m) with
        | None => m                                   (* queue.Empty: continue *)
        | Some (fd, q') =>
            let m := set_stats (add_total_frames 1 (stats m)) (set_frame_queue q' m) in
            let batch_frames := batch_frames ++ [fd] in
            if BATCH_SIZE cfg <=? Z.of_nat (length batch_frames) then
              set_processing_thread (InLoop []) (_process_batch batch_frames m)
            else set_processing_thread (InLoop batch_frames) m
        end
      else
        (* after the loop: process remaining frames *)
        set_processing_thread Exited
          (match batch_frames with
           | [] => m
           | _ :: _ => _process_batch batch_frames m
           end)
  | _ => m
  end.

(** [get_frame]: with the name of a registered stream it does nothing and
    returns [None]; otherwise it takes the oldest frame of the queue. *)
Definition get_frame (stream_name : option string) (m : t) : option frame_data * t :=
  let named :=
    match stream_name with
    | Some n => negb (String.eqb n EmptyString) && bool_decide (is_Some (streams m !! n))
    | None => false
    end in
  if named then (None, m)
  else match get_nowait (frame_queue m) with
       | Some (fd, q') => (Some fd, set_frame_queue q' m)
       | None => (None, m)
       end.

(** One iteration of the capture loop of the stream called [n], if that
    stream exists and is running. *)
Definition capture_step (cfg : Config) (n : string)
    (i : VideoStream.iteration_input) (m : t)
    : option VideoStream.iteration_outcome * t :=
  match streams m !! n with
  | Some s =>
      if VideoStream.running s then
        let '(o, s', q') := VideoStream._stream_loop_iteration cfg i s (frame_queue m) in
        (Some o, set_frame_queue q' (set_streams (<[n := s']> (streams m)) m))
      else (None, m)
  | None => (None, m)
  end.

End StreamManager.

(** ** The pipeline as a transition system *)

(** What can happen to a manager: a call of its interface, or one step of
    one of its threads. *)
Inductive event :=
| AddStream (c : StreamConfig)
| RemoveStream (stream_name : string)
| SetFrameCallback (cb : Callback)
| Start
| Stop
| GetFrame (stream_name : option string)
| Capture (stream_name : string) (i : VideoStream.iteration_input)
| Consume.

Definition step (cfg : Config) (m : StreamManager.t) (e : event) : StreamManager.t :=
  match e with
  | AddStream c => StreamManager.add_stream c m
  | RemoveStream n => StreamManager.remove_stream n m
  | SetFrameCallback cb => StreamManager.set_frame_callback cb m
  | Start => StreamManager.start m
  | Stop => StreamManager.stop m
  | GetFrame n => snd (StreamManager.get_frame n m)
  | Capture n i => snd (StreamManager.capture_step cfg n i m)
  | Consume => StreamManager._processing_loop_step cfg m
  end.

Definition run (cfg : Config) (es : list event) (m : StreamManager.t) : StreamManager.t :=
  foldl (step cfg) m es.

(** ** Worker tasks ([src/workers/tasks.py]) *)

Module Tasks.

Inductive mask_label := mask | no_mask.

(** One entry of the detector's output; only its label is read here. *)
Record detection := mkDetection { label : mask_label; confidence : Q }.

Definition is_no_mask (d : detection) : bool :=
  match label d with no_mask => true | mask => false end.

(** The two keys of [frame_data] that [process_frame] copies. *)
Definition frame_stream_name (fd : frame_data) : string := stream_name fd.
Definition frame_timestamp (fd : frame_data) : Q := timestamp fd.

(** The [results] dict of [process_frame], the [detection_data] of the
    other tasks. *)
Record detection_data := mkData {
  stream_name : string;
  timestamp : Q;
  detections : list detection;
  total_faces : Z;
  mask_violations : Z
}.

(** The tasks [process_frame] hands to the task queue with [.delay]. *)
Inductive task :=
| save_detection_task (d : detection_data)
| send_alert_task (d : detection_data).

(** [process_frame], given what the detector found in the frame: the
    results and the tasks it spawns. *)
Definition process_frame (fd : frame_data) (found : list detection)
    : detection_data * list task :=
  let results :=
    {| stream_name := frame_stream_name fd;
       timestamp := frame_timestamp fd;
       detections := found;
       total_faces := Z.of_nat (length found);
       mask_violations := Z.of_nat (length (filter (fun d => is_no_mask d = true) found)) |} in
  let save := match found with [] => [] | _ :: _ => [save_detection_task results] end in
  let violations := filter (fun d => is_no_mask d = true) found in
  let alert := match violations with [] => [] | _ :: _ => [send_alert_task results] end in
  (results, save ++ alert).

(** [_should_send_alert]: its body is [return True]. *)
Definition _should_send_alert (d : detection_data) : bool := true.

(** The variable parts of the text built by [_prepare_alert_message]
    (the clock reading of [time.strftime] is left out). *)
Record alert_message := mkMessage {
  msg_camera : string;
  msg_violations : Z;
  msg_total_faces : Z
}.

Definition _prepare_alert_message (d : detection_data) : alert_message :=
  {| msg_camera := stream_name d;
     msg_violations := mask_violations d;
     msg_total_faces := total_faces d |}.

(** What [send_alert] sends out. *)
Inductive notification :=
| telegram_alert (msg : alert_message) (d : detection_data)
| alert_record (d : detection_data) (msg : alert_message)
| mqtt_alert (d : detection_data).

Inductive alert_status :=
| skipped_cooldown            (* {'status': 'skipped', 'reason': 'cooldown'} *)
| sent (msg : alert_message). (* {'status': 'sent', 'message': ...} *)

(** Python truth value of an [Optional[str]]. *)
Definition truthy (s : option string) : bool :=
  match s with
  | Some x => negb (String.eqb x EmptyString)
  | None => false
  end.

(** [send_alert]: the returned status and the notifications sent, in
    order, when the collaborators do not raise. *)
Definition send_alert (cfg : Config) (d : detection_data)
    : alert_status * list notification :=
  if negb (_should_send_alert d) then (skipped_cooldown, [])
  else
    let message := _prepare_alert_message d in
    let tg :=
      if truthy (TELEGRAM_BOT_TOKEN cfg) && truthy (TELEGRAM_CHAT_ID cfg)
      then [telegram_alert message d] else [] in
    (sent message, tg ++ [alert_record d message; mqtt_alert d]).

(** The row of aggregates read by [_calculate_compliance_rate]: an SQL
    [sum] over no row is [None]. *)
Record report_stats := mkReportStats {
  rs_total_faces : option Z;
  rs_total_violations : option Z
}.

(** [a / b]: [None] is [ZeroDivisionError]. *)
Definition truediv (a b : Z) : option Q :=
  if b =? 0 then None else Some (inject_Z a / inject_Z b)%Q.

(** [round(x, 2)]. *)
Definition round2 (x : Q) : Q := (inject_Z (round_half_even (x * 100)) / 100)%Q.

(** [x or 0]. *)
Definition or_zero (x : option Z) : Z :=
  match x with
  | Some v => v
  | None => 0
  end.

(** [_calculate_compliance_rate]: [None] is an exception. *)
Definition _calculate_compliance_rate (st : report_stats) : option Q :=
  let falsy := match rs_total_faces st with Some v => v =? 0 | None => true end in
  let is_zero := match rs_total_faces st with Some v => v =? 0 | None => false end in
  if falsy || is_zero then Some 100%Q
  else
    match rs_total_faces st with
    | None => None                      (* None - violations: TypeError *)
    | Some faces =>
        let violations := or_zero (rs_total_violations st) in
        r ← truediv (faces - violations) faces;
        Some (round2 (r * 100))
    end.

(** The gate as the specification words it: enough violations, and the
    cooldown elapsed since the last alert of the source. *)
Definition spec_alert_eligible (cfg : Config) (last_alert_at now : Q)
    (violation_count : Z) : bool :=
  (MIN_VIOLATIONS_FOR_ALERT cfg <=? violation_count)
  && Qle_bool (inject_Z (ALERT_COOLDOWN cfg)) (now - last_alert_at).

End Tasks.

(** ** Invariants and sample inputs *)

(** What the threads do to the shared queue, one atomic call at a time:
    this covers every interleaving of the capture loops and the consumer. *)
Inductive queue_call :=
| call_put_nowait (fd : frame_data)
| call_get_nowait.

Definition do_call (q : FrameQueue) (c : queue_call) : FrameQueue :=
  match c with
  | call_put_nowait fd => default q (put_nowait q fd)
  | call_get_nowait => from_option snd q (get_nowait q)
  end.

(** The invariant of the manager: its queue has the configured capacity
    and respects it. *)
Definition queue_ok (cfg : Config) (m : StreamManager.t) : Prop :=
  maxsize (StreamManager.frame_queue m) = QUEUE_SIZE cfg
  /\ within_capacity (StreamManager.frame_queue m).

(** The [n]th frame of camera_0, captured at second [999 + n]. *)
Definition example_frame (n : Z) : frame_data :=
  {| frame := mkImage n 640 480; stream_name := "camera_0";
     timestamp := inject_Z (999 + n); frame_number := n |}.

(** A 30 fps and a 15 fps stream, a camera that is connected and delivers
    image [p] at second [t], and a configuration with a queue of two. *)
Definition camera_30 : StreamConfig :=
  {| url := "rtsp://10.0.0.1/live"; name := "camera_0"; enabled := true;
     max_fps := 30; reconnect_interval := 5; buffer_size := 3 |}.

Definition camera_8 : StreamConfig :=
  {| url := "rtsp://10.0.0.2/live"; name := "camera_1"; enabled := true;
     max_fps := 8; reconnect_interval := 5; buffer_size := 3 |}.

Definition camera_15 : StreamConfig :=
  {| url := "rtsp://10.0.0.1/live"; name := "camera_0"; enabled := true;
     max_fps := 15; reconnect_interval := 5; buffer_size := 3 |}.

Definition delivers (t p : Z) : VideoStream.iteration_input :=
  {| VideoStream.cap_opened := true; VideoStream.connect_ok := true;
     VideoStream.current_time := inject_Z t;
     VideoStream.read_result := Some (mkImage p 1920 1080) |}.

Definition small_queue_config : Config :=
  {| MAX_WORKERS := 4; QUEUE_SIZE := 2; BATCH_SIZE := 10;
     RESIZE_WIDTH := 640; RESIZE_HEIGHT := 480;
     ALERT_COOLDOWN := 300; MIN_VIOLATIONS_FOR_ALERT := 3;
     TELEGRAM_BOT_TOKEN := None; TELEGRAM_CHAT_ID := None |}.

(** camera_0 added and started, then two frames captured: with a queue of
    two, the queue is full. *)
Definition two_frames_captured : list event :=
  [AddStream camera_30; Start;
   Capture "camera_0" (delivers 1000 1); Capture "camera_0" (delivers 1001 2)].

(** The manager after [two_frames_captured], and the third capture. *)
Definition queue_full_manager : StreamManager.t :=
  run small_queue_config two_frames_captured (StreamManager.init small_queue_config 0).

Definition third_capture : option VideoStream.iteration_outcome * StreamManager.t :=
  StreamManager.capture_step small_queue_config "camera_0" (delivers 1002 3)
    queue_full_manager.

(** One frame captured and taken by the consumer: the accumulator holds it
    and the queue is empty.  The callback always returns. *)
Definition one_frame_pending : StreamManager.t :=
  run default_config
    [AddStream camera_30; SetFrameCallback (fun _ => true); Start;
     Capture "camera_0" (delivers 1000 1); Consume]
    (StreamManager.init default_config 0).

(** Three frames captured, one of them taken by the consumer. *)
Definition two_frames_buffered : StreamManager.t :=
  run default_config
    [AddStream camera_30; SetFrameCallback (fun _ => true); Start;
     Capture "camera_0" (delivers 1000 1); Capture "camera_0" (delivers 1001 2);
     Capture "camera_0" (delivers 1002 3); Consume]
    (StreamManager.init default_config 0).

(** A configuration with batches of two, and three frames waiting in the
    queue of a started manager whose callback always returns. *)
Definition small_batch_config : Config :=
  {| MAX_WORKERS := 4; QUEUE_SIZE := 100; BATCH_SIZE := 2;
     RESIZE_WIDTH := 640; RESIZE_HEIGHT := 480;
     ALERT_COOLDOWN := 300; MIN_VIOLATIONS_FOR_ALERT := 3;
     TELEGRAM_BOT_TOKEN := None; TELEGRAM_CHAT_ID := None |}.

Definition three_frames_waiting : StreamManager.t :=
  run small_batch_config
    [AddStream camera_30; SetFrameCallback (fun _ => true); Start;
     Capture "camera_0" (delivers 1000 1); Capture "camera_0" (delivers 1001 2);
     Capture "camera_0" (delivers 1002 3)]
    (StreamManager.init small_batch_config 0).

(** Four iterations of a capture loop, one second apart, each finding the
    queue empty (the consumer keeps up). *)
Definition four_iterations : list (VideoStream.iteration_input * FrameQueue) :=
  [(delivers 1000 1, PyQueue.new 100); (delivers 1001 2, PyQueue.new 100);
   (delivers 1002 3, PyQueue.new 100); (delivers 1003 4, PyQueue.new 100)].

(** A result of [process_frame] for a frame of camera_0 stamped [t] in
    which the detector found [violations] faces, all without a mask. *)
Definition unmasked : Tasks.detection :=
  {| Tasks.label := Tasks.no_mask; Tasks.confidence := 9 # 10 |}.

Definition frame_at (t : Z) : frame_data :=
  {| frame := mkImage 1 640 480; stream_name := "camera_0";
     timestamp := inject_Z t; frame_number := 1 |}.

Definition alert_at (t : Z) (violations : nat) : Tasks.detection_data :=
  (Tasks.process_frame (frame_at t) (replicate violations unmasked)).1.

(** * The rest of the pipeline *)

(** ** Views of the manager used by the properties below *)

(** The local [batch_frames] of the consumer while it is in its loop. *)
Definition pending (m : StreamManager.t) : list frame_data :=
  match StreamManager.processing_thread m with
  | InLoop batch_frames => batch_frames
  | _ => []
  end.

(** Every frame the consumer side holds or has handed on, oldest first:
    the flushed batches, the accumulator, then the queue. *)
Definition pipeline_contents (m : StreamManager.t) : list frame_data :=
  concat (StreamManager.flushed m) ++ pending m
  ++ items (StreamManager.frame_queue m).

(** [get_stats]: the [stats] dict with [uptime], [fps], [active_streams]
    and [queue_size] added; [now] is [time.time()]. *)
Record stats_report := mkReport {
  report_stats : Stats;
  report_uptime : Q;
  report_fps : Q;
  report_active_streams : Z;
  report_queue_size : Z
}.

Definition get_stats (now : Q) (m : StreamManager.t) : stats_report :=
  let uptime := (now - start_time (StreamManager.stats m))%Q in
  let fps :=
    if Qltb 0 uptime
    then (inject_Z (processed_frames (StreamManager.stats m)) / uptime)%Q
    else 0%Q in
  {| report_stats := StreamManager.stats m;
     report_uptime := uptime;
     report_fps := fps;
     report_active_streams :=
       Z.of_nat (length (filter (fun s => VideoStream.running s = true)
                           (snd <$> map_to_list (StreamManager.streams m))));
     report_queue_size := qsize (StreamManager.frame_queue m) |}.

(** [FaceMaskDetectionSystem._process_frame_callback] of [main.py], on the
    counter it updates.  [delay_ok] tells whether [process_frame.delay]
    returns; the whole body is under [try/except Exception], so the call
    itself always returns: the boolean is [true] in both branches. *)
Module Main.
Record t := mk { total_frames_processed : Z; submitted : list frame_data }.

Definition _process_frame_callback (delay_ok : frame_data -> bool)
    (fd : frame_data) (sys : t) : bool * t :=
  if delay_ok fd
  then (true, {| total_frames_processed := total_frames_processed sys + 1;
                 submitted := submitted sys ++ [fd] |})
  else (true, sys).

(** The callback as the stream manager sees it. *)
Definition frame_callback (delay_ok : frame_data -> bool) (sys : t) : Callback :=
  fun fd => (_process_frame_callback delay_ok fd sys).1.
End Main.

(** The callbacks registered along a list of events never raise. *)
Definition callbacks_return (es : list event) : Prop :=
  Forall (fun e => match e with
                   | SetFrameCallback cb => forall fd, cb fd = true
                   | _ => True
                   end) es.

(** What [__init__] and the loop maintain of a stream registered under the
    key [n] of a manager whose [running] flag is [r]. *)
Definition stream_ok (n : string) (r : bool) (s : VideoStream.t) : Prop :=
  name (VideoStream.config s) = n
  /\ VideoStream.running s = r
  /\ max_fps (VideoStream.config s) <> 0
  /\ VideoStream.frame_skip s
     = VideoStream.frame_skip_of (max_fps (VideoStream.config s))
  /\ VideoStream.frame_interval s
     = (1 / inject_Z (max_fps (VideoStream.config s)))%Q
  /\ 0 <= VideoStream.frame_count s.

Definition streams_ok (m : StreamManager.t) : Prop :=
  forall n s, StreamManager.streams m !! n = Some s ->
              stream_ok n (StreamManager.running m) s.

(** A frame as the capture loop builds it. *)
Definition frame_ok (cfg : Config) (fd : frame_data) : Prop :=
  width (frame fd) = RESIZE_WIDTH cfg
  /\ height (frame fd) = RESIZE_HEIGHT cfg
  /\ 1 <= frame_number fd.

Definition frames_ok (cfg : Config) (m : StreamManager.t) : Prop :=
  Forall (frame_ok cfg) (items (StreamManager.frame_queue m))
  /\ Forall (frame_ok cfg) (pending m)
  /\ Forall (Forall (frame_ok cfg)) (StreamManager.flushed m)
  /\ Forall (frame_ok cfg) (StreamManager.dispatched m).

(** The counters against the history of flushes and callback calls. *)
Definition stats_ok (m : StreamManager.t) : Prop :=
  let st := StreamManager.stats m in
  let flushed_frames := Z.of_nat (length (concat (StreamManager.flushed m))) in
  0 <= processed_frames st
  /\ processed_frames st <= Z.of_nat (length (StreamManager.dispatched m))
  /\ Z.of_nat (length (StreamManager.dispatched m)) <= flushed_frames
  /\ 0 <= dropped_frames st
  /\ dropped_frames st <= flushed_frames
  /\ flushed_frames + Z.of_nat (length (pending m)) <= total_frames st.

(** While no callback raises: nothing is counted as dropped and every call
    of the callback is counted as processed. *)
Definition never_raised (m : StreamManager.t) : Prop :=
  (forall cb, StreamManager.frame_callback m = Some cb -> forall fd, cb fd = true)
  /\ dropped_frames (StreamManager.stats m) = 0
  /\ processed_frames (StreamManager.stats m)
     = Z.of_nat (length (StreamManager.dispatched m)).

(** A callback that raises on the frame numbered 3. *)
Definition fails_on_third : Callback := fun fd => negb (frame_number fd =? 3).

(** camera_0 added, a callback registered the way [main.py] does, the
    manager started and two frames captured and consumed. *)
Definition main_like_events : list event :=
  [AddStream camera_30;
   SetFrameCallback (Main.frame_callback (fun _ => false) (Main.mk 0 []));
   Start;
   Capture "camera_0" (delivers 1000 1); Capture "camera_0" (delivers 1001 2);
   Consume; Consume; Stop; Consume].

(** ** Camera URLs: [get_camera_urls], [create_stream_manager], [_connect] *)

(** [str.isspace] on an ASCII character: tab to carriage return (9 to 13),
    the separators 28 to 31, and the space.  Strings are taken to be ASCII,
    as the URLs of the configuration are. *)
Definition py_isspace (c : ascii) : bool :=
  match c with
  | "009" | "010" | "011" | "012" | "013"
  | "028" | "029" | "030" | "031" | " " => true
  | _ => false
  end%char.

Fixpoint py_lstrip (s : string) : string :=
  match s with
  | String c rest => if py_isspace c then py_lstrip rest else s
  | EmptyString => EmptyString
  end.


(** [Config.get_camera_urls], given the two settings it reads:
    [CAMERA_RTSP_URLS] and [RPI_CAMERA_INDEXES]. *)
Definition get_camera_urls (CAMERA_RTSP_URLS : list string)
    (RPI_CAMERA_INDEXES : list Z) : list string :=
  CAMERA_RTSP_URLS ++ map (fun index => "rpi://" +:+ pretty index) RPI_CAMERA_INDEXES.




(** [str.split(sep)] for a non-empty [sep]: cut at every occurrence of
    [sep], left to right.  [skip] counts the characters of a separator just
    found that are still to be passed over, [piece] is the current piece,
    reversed. *)
Fixpoint py_split_go (sep s : string) (skip : nat) (piece : string) : list string :=
  match s with
  | EmptyString => [String.rev piece]
  | String c rest =>
      match skip with
      | S k => py_split_go sep rest k piece
      | O =>
          if String.prefix sep s
          then String.rev piece :: py_split_go sep rest (String.length sep - 1) EmptyString
          else py_split_go sep rest 0 (String c piece)
      end
  end.

Definition py_split (sep s : string) : list string := py_split_go sep s 0 EmptyString.

(** The digits of [int(s)], base 10, after the sign: decimal digits with
    single underscores between them, then optional white space up to the
    end.  [None] is [ValueError]. *)
Fixpoint all_space (s : string) : bool :=
  match s with
  | EmptyString => true
  | String c rest => py_isspace c && all_space rest
  end.

Fixpoint parse_digits (s : string) (acc : Z) (after_digit : bool) : option Z :=
  match s with
  | EmptyString => if after_digit then Some acc else None
  | String c rest =>
      match Ascii.is_nat c with
      | Some d => parse_digits rest (10 * acc + Z.of_nat d) true
      | None =>
          if after_digit && Ascii.eqb c "_" then parse_digits rest acc false
          else if after_digit && py_isspace c && all_space rest then Some acc
          else None
      end
  end.

(** [int(s)] on an ASCII string. *)
Definition py_int (s : string) : option Z :=
  match py_lstrip s with
  | String "+" rest => parse_digits rest 0 false
  | String "-" rest => Z.opp <$> parse_digits rest 0 false
  | t => parse_digits t 0 false
  end.

(** What [_connect] hands to [cv2.VideoCapture]: a device index for an
    [rpi://] URL, the URL itself otherwise.  [None] is an exception
    ([ValueError] of [int], [IndexError] of [[1]]), on which [_connect]
    returns [False]. *)
Inductive capture_target :=
| Device (camera_index : Z)
| Address (stream_url : string).

Definition _connect_target (u : string) : option capture_target :=
  if String.prefix "rpi://" u then
    match py_split "://" u !! 1%nat with
    | Some t => Device <$> py_int t
    | None => None
    end
  else Some (Address u).

(** [_connect], given whether the capture opens. *)
Definition _connect (c : StreamConfig) (is_opened : capture_target -> bool) : bool :=
  match _connect_target (url c) with
  | Some target => is_opened target
  | None => false
  end.

(** All characters of a string satisfy [P]. *)
Fixpoint string_forall (P : ascii -> bool) (s : string) : bool :=
  match s with
  | EmptyString => true
  | String c rest => P c && string_forall P rest
  end.

(** A decimal digit. *)
Definition decimal (c : ascii) : bool :=
  match Ascii.is_nat c with Some _ => true | None => false end.

(** ** Compliance rates ([database/models.py], [web_app.py]) *)

(** [Detection.compliance_rate], on the two columns it reads. *)
Definition detection_compliance_rate (total_faces mask_violations : Z) : option Q :=
  if total_faces =? 0 then Some 100%Q
  else
    r ← Tasks.truediv (total_faces - mask_violations) total_faces;
    Some (Tasks.round2 (r * 100)).

(** [sum(column)] of SQL over the selected rows: [None] when there is no
    row. *)
Definition sql_sum (column : list Z) : option Z :=
  match column with
  | [] => None
  | _ :: _ => Some (foldr Z.add 0 column)
  end.

(** [get_compliance_rate], on the two sums that its queries return. *)
Definition get_compliance_rate (sum_faces sum_violations : option Z) : option Q :=
  let total_faces := Tasks.or_zero sum_faces in
  let total_violations := Tasks.or_zero sum_violations in
  if total_faces =? 0 then Some 100%Q
  else
    r ← Tasks.truediv (total_faces - total_violations) total_faces;
    Some (Tasks.round2 (r * 100)).

(** [x or 1]. *)
Definition or_one (x : option Z) : Z :=
  match x with
  | Some v => if v =? 0 then 1 else v
  | None => 1
  end.

(** The ['compliance_rate'] entry of [get_compliance_report] in
    [web_app.py]:
    [round(((total_faces or 0) - (violations or 0)) / (total_faces or 1) * 100, 2)]. *)
Definition report_compliance_rate (total_faces violations : option Z) : option Q :=
  r ← Tasks.truediv (Tasks.or_zero total_faces - Tasks.or_zero violations)
        (or_one total_faces);
  Some (Tasks.round2 (r * 100)).

(** The rows [save_detection] writes for a list of processed frames: one
    per [save_detection_task] that [process_frame] spawned. *)
Definition saved_rows (frames : list (frame_data * list Tasks.detection))
    : list Tasks.detection_data :=
  flat_map (fun '(fd, found) =>
              omap (fun t => match t with
                             | Tasks.save_detection_task d => Some d
                             | Tasks.send_alert_task _ => None
                             end)
                   (Tasks.process_frame fd found).2)
           frames.

Definition masked : Tasks.detection :=
  {| Tasks.label := Tasks.mask; Tasks.confidence := 9 # 10 |}.

(** ** [MQTTClient] ([src/mqtt/client.py]) *)

Module MQTT.

(** What travels on a topic: text, or the alert dict of [_send_mqtt_alert]
    as JSON. *)
Inductive payload :=
| Text (s : string)
| AlertJson (timestamp : Q) (violations total_faces : Z) (stream_name : string).

Record message := mkMessage {
  topic : string;
  body : payload;
  qos : Z;
  retain : bool
}.

(** The client object.  [message_handlers] is the dict of the source, a
    handler being known by a number; [subscriptions] are the calls of
    [client.subscribe], [published] the messages the broker library
    accepted, [invoked] the calls of handlers, all oldest first. *)
Record t := mk {
  client : bool;                       (* self.client is not None *)
  is_connected : bool;
  message_handlers : gmap string nat;
  subscriptions : list (string * Z);
  published : list message;
  invoked : list (nat * payload)
}.

(** [__init__]: [client_ok] tells whether [_initialize_client] managed to
    build the library client (it catches its own exceptions). *)
Definition init (client_ok : bool) : t :=
  {| client := client_ok; is_connected := false; message_handlers := ∅;
     subscriptions := []; published := []; invoked := [] |}.

Definition set_connected (b : bool) (c : t) : t :=
  {| client := client c; is_connected := b; message_handlers := message_handlers c;
     subscriptions := subscriptions c; published := published c;
     invoked := invoked c |}.

(** [_subscribe_to_topics]. *)
Definition control_topics : list (string * Z) :=
  [("face_mask/control/camera", 1); ("face_mask/control/system", 1);
   ("face_mask/control/detection", 1); ("face_mask/status/request", 1)].

Definition _subscribe_to_topics (c : t) : t :=
  {| client := client c; is_connected := is_connected c;
     message_handlers := message_handlers c;
     subscriptions := subscriptions c ++ control_topics;
     published := published c; invoked := invoked c |}.

(** [_on_connect] with the return code [rc] of the broker. *)
Definition _on_connect (rc : Z) (c : t) : t :=
  if rc =? 0 then _subscribe_to_topics (set_connected true c) else c.

(** [_on_disconnect]. *)
Definition _on_disconnect (rc : Z) (c : t) : t := set_connected false c.

(** [connect], as far as the object goes: a missing library client is
    built again; the answer of the broker arrives as [_on_connect]. *)
Definition connect (client_ok : bool) (c : t) : t :=
  {| client := client c || client_ok; is_connected := is_connected c;
     message_handlers := message_handlers c; subscriptions := subscriptions c;
     published := published c; invoked := invoked c |}.

(** [disconnect]: [lib_ok] is false when the library raises, which the
    method catches before it clears [is_connected]. *)
Definition disconnect (lib_ok : bool) (c : t) : t :=
  if client c && is_connected c
  then (if lib_ok then set_connected false c else c)
  else c.

(** [publish]: [sent] tells whether the library reports
    [MQTT_ERR_SUCCESS]; an exception, as on a missing library client, ends
    in [return False] as well. *)
Definition publish (sent : bool) (tp : string) (p : payload) (c : t) : bool * t :=
  if negb (is_connected c) then (false, c)
  else if client c && sent then
    (true, {| client := client c; is_connected := is_connected c;
              message_handlers := message_handlers c;
              subscriptions := subscriptions c;
              published := published c ++ [mkMessage tp p 1 false];
              invoked := invoked c |})
  else (false, c).

(** [subscribe(topic, handler)]: [lib_ok] is false when
    [client.subscribe] raises, which skips the registration. *)
Definition subscribe (lib_ok : bool) (tp : string) (handler : nat) (c : t)
    : bool * t :=
  if negb (is_connected c) then (false, c)
  else if client c && lib_ok then
    (true, {| client := client c; is_connected := is_connected c;
              message_handlers := <[tp := handler]> (message_handlers c);
              subscriptions := subscriptions c ++ [(tp, 1)];
              published := published c; invoked := invoked c |})
  else (false, c).

(** [_on_message]: [data] is the decoded payload, [None] when decoding
    raises; the handler registered for exactly this topic, if any, is
    called on it. *)
Definition _on_message (tp : string) (data : option payload) (c : t) : t :=
  match data with
  | None => c
  | Some d =>
      match message_handlers c !! tp with
      | Some handler =>
          {| client := client c; is_connected := is_connected c;
             message_handlers := message_handlers c;
             subscriptions := subscriptions c; published := published c;
             invoked := invoked c ++ [(handler, d)] |}
      | None => c
      end
  end.

(** [_send_mqtt_alert] of [tasks.py]: a new [MQTTClient()] and one
    [publish] on it.  The source drops what [publish] returns; here it is
    kept, with the client the call leaves. *)
Definition _send_mqtt_alert (client_ok sent : bool) (d : Tasks.detection_data)
    : bool * t :=
  publish sent ("face_mask/alerts/" +:+ Tasks.stream_name d)
    (AlertJson (Tasks.timestamp d) (Tasks.mask_violations d) (Tasks.total_faces d)
       (Tasks.stream_name d))
    (init client_ok).

(** The calls made on a client, by the program or by the library. *)
Inductive call :=
| CallConnect (client_ok : bool)
| CallOnConnect (rc : Z)
| CallOnDisconnect (rc : Z)
| CallPublish (sent : bool) (tp : string) (p : payload)
| CallSubscribe (lib_ok : bool) (tp : string) (handler : nat)
| CallOnMessage (tp : string) (data : option payload)
| CallDisconnect (lib_ok : bool).

Definition do (c : t) (x : call) : t :=
  match x with
  | CallConnect client_ok => connect client_ok c
  | CallOnConnect rc => _on_connect rc c
  | CallOnDisconnect rc => _on_disconnect rc c
  | CallPublish sent tp p => (publish sent tp p c).2
  | CallSubscribe lib_ok tp handler => (subscribe lib_ok tp handler c).2
  | CallOnMessage tp data => _on_message tp data c
  | CallDisconnect lib_ok => disconnect lib_ok c
  end.

(** No broker has accepted a connection in these calls. *)
Definition never_accepted (calls : list call) : Prop :=
  Forall (fun x => match x with CallOnConnect rc => rc <> 0 | _ => True end) calls.

End MQTT.

(** ** [FaceDetector] ([src/models/face_detector.py]) *)

Module FaceDetector.


(** A face as [detect_faces] returns it: [(x, y, w, h, confidence)]. *)
Record face := mkFace { face_x : Z; face_y : Z; face_w : Z; face_h : Z; face_confidence : Q }.



(** The detector object: only what [detect_faces] reads and writes. *)
Record t := mk {
  confidence_threshold : Q;
  frame_skip : Z;
  frame_count : Z
}.

(** [detect_faces]: [found] is what the detection under the [try] yields
    for this frame, [None] when it raises (the handler returns []).  The
    outer [None] is the [ZeroDivisionError] of [%] on a zero [frame_skip],
    which is raised before the [try]. *)
Definition detect_faces (found : option (list face)) (det : t)
    : option (list face * t) :=
  if frame_skip det =? 0 then None
  else
    let det' := {| confidence_threshold := confidence_threshold det;
                   frame_skip := frame_skip det;
                   frame_count := frame_count det + 1 |} in
    if negb (frame_count det mod frame_skip det =? 0) then Some ([], det')
    else Some (default [] found, det').

(** Successive calls of [detect_faces] on one detector, as the worker makes
    them; the results, oldest first, and the detector left.  A call that
    raises leaves the detector as it was. *)
Fixpoint detect_all (frames : list (option (list face))) (det : t)
    : list (option (list face)) * t :=
  match frames with
  | [] => ([], det)
  | found :: rest =>
      match detect_faces found det with
      | Some (faces, det') =>
          let '(results, final) := detect_all rest det' in (Some faces :: results, final)
      | None =>
          let '(results, final) := detect_all rest det in (None :: results, final)
      end
  end.

End FaceDetector.

(** ** Uptime as hours and minutes ([send_status_update], [stop] of
       [main.py]) *)



(** * Properties *)

(** ** The bounded queue *)

Section QueueFacts.
Context {A : Type}.
Implicit Types (q : Queue A) (x : A).

Lemma maxsize_put q x q' : put_nowait q x = Some q' -> maxsize q' = maxsize q.
Proof. unfold put_nowait. destruct (full q); [discriminate|]. now intros [= <-]. Qed.

Lemma maxsize_get q x q' : get_nowait q = Some (x, q') -> maxsize q' = maxsize q.
Proof. unfold get_nowait. destruct (items q); [discriminate|]. now intros [= _ <-]. Qed.

Lemma qsize_put q x q' : put_nowait q x = Some q' -> qsize q' = qsize q + 1.
Proof.
  unfold put_nowait. destruct (full q); [discriminate|]. intros [= <-].
  unfold qsize; simpl. rewrite length_app; simpl. lia.
Qed.

Lemma qsize_get q x q' : get_nowait q = Some (x, q') -> qsize q' = qsize q - 1.
Proof.
  unfold get_nowait, qsize. destruct (items q); [discriminate|].
  intros [= _ <-]; simpl. lia.
Qed.

Lemma full_spec q : full q = true <-> 0 < maxsize q /\ maxsize q <= qsize q.
Proof. unfold full. rewrite andb_true_iff, Z.ltb_lt, Z.leb_le. tauto. Qed.

Lemma put_nowait_Some q x q' :
  put_nowait q x = Some q' -> maxsize q <= 0 \/ qsize q < maxsize q.
Proof.
  unfold put_nowait. destruct (full q) eqn:F; [discriminate|]. intros _.
  destruct (Z_lt_le_dec 0 (maxsize q)); [|now left].
  destruct (Z_lt_le_dec (qsize q) (maxsize q)); [now right|].
  exfalso. apply not_true_iff_false in F. apply F, full_spec. lia.
Qed.

Lemma within_capacity_put q x q' :
  within_capacity q -> put_nowait q x = Some q' -> within_capacity q'.
Proof.
  intros _ P Hpos. pose proof (maxsize_put _ _ _ P) as M.
  pose proof (qsize_put _ _ _ P) as Hs. apply put_nowait_Some in P. lia.
Qed.

Lemma within_capacity_get q x q' :
  within_capacity q -> get_nowait q = Some (x, q') -> within_capacity q'.
Proof.
  intros W G Hpos. pose proof (maxsize_get _ _ _ G) as M.
  pose proof (qsize_get _ _ _ G) as Hs. unfold within_capacity in W. lia.
Qed.

Lemma within_capacity_new n : within_capacity (@new A n).
Proof. intros H. unfold qsize; simpl in *. lia. Qed.
End QueueFacts.

(** ** Enqueue with drop-oldest *)

Lemma enqueue_maxsize q fd : maxsize (enqueue q fd).2 = maxsize q.
Proof.
  unfold enqueue.
  destruct (put_nowait q fd) as [q1|] eqn:P1; simpl.
  { eapply maxsize_put; eauto. }
  destruct (get_nowait q) as [[old q1]|] eqn:G; simpl; [|done].
  destruct (put_nowait q1 fd) as [q2|] eqn:P2; simpl.
  - erewrite maxsize_put by eauto. eapply maxsize_get; eauto.
  - eapply maxsize_get; eauto.
Qed.

Lemma enqueue_within_capacity q fd :
  within_capacity q -> within_capacity (enqueue q fd).2.
Proof.
  intros W. unfold enqueue.
  destruct (put_nowait q fd) as [q1|] eqn:P1; simpl.
  { eapply within_capacity_put; eauto. }
  destruct (get_nowait q) as [[old q1]|] eqn:G; simpl; [|done].
  pose proof (within_capacity_get _ _ _ W G) as W1.
  destruct (put_nowait q1 fd) as [q2|] eqn:P2; simpl; [|done].
  eapply within_capacity_put; eauto.
Qed.

Lemma enqueue_on_full (q : FrameQueue) s1 rest fd :
  items q = s1 :: rest ->
  maxsize q = Z.of_nat (length (s1 :: rest)) ->
  enqueue q fd = (InsertedAfterEviction s1, mkQueue (maxsize q) (rest ++ [fd])).
Proof.
  intros Hitems Hmax. unfold enqueue.
  assert (F : full q = true).
  { apply full_spec. unfold qsize. rewrite Hitems, Hmax. simpl length. lia. }
  unfold put_nowait at 1. rewrite F.
  unfold get_nowait. rewrite Hitems.
  unfold put_nowait.
  assert (F' : full (mkQueue (maxsize q) rest) = false).
  { apply not_true_iff_false. rewrite full_spec. unfold qsize; simpl.
    rewrite Hmax. simpl length. lia. }
  now rewrite F'.
Qed.

(** C2.  Drop-oldest: enqueueing into a full queue that holds
    [s1 :: rest] (oldest first, as many frames as [maxsize]) evicts exactly
    [s1] and leaves [rest ++ [fd]], so the sequence numbers [s2..sk] are
    followed by the new one; [enqueue] is a total function made of
    non-blocking calls. *)
Theorem enqueue_full_drops_oldest (q : FrameQueue) (s1 : frame_data)
    (rest : list frame_data) (fd : frame_data) :
  items q = s1 :: rest ->
  maxsize q = Z.of_nat (length (s1 :: rest)) ->
  enqueue q fd = (InsertedAfterEviction s1, mkQueue (maxsize q) (rest ++ [fd]))
  /\ map frame_number (items (enqueue q fd).2)
     = map frame_number rest ++ [frame_number fd].
Proof.
  intros Hi Hm. rewrite (enqueue_on_full q s1 rest fd Hi Hm). split; [reflexivity|].
  simpl. now rewrite map_app.
Qed.

Lemma enqueue_full_drops_oldest_witness :
  enqueue (mkQueue 3 [example_frame 1; example_frame 2; example_frame 3])
          (example_frame 4)
  = (InsertedAfterEviction (example_frame 1),
     mkQueue 3 [example_frame 2; example_frame 3; example_frame 4])
  /\ map frame_number
       (items (enqueue (mkQueue 3 [example_frame 1; example_frame 2; example_frame 3])
                 (example_frame 4)).2)
     = [2; 3; 4].
Proof.
  apply (enqueue_full_drops_oldest
           (mkQueue 3 [example_frame 1; example_frame 2; example_frame 3])
           (example_frame 1) [example_frame 2; example_frame 3] (example_frame 4));
    reflexivity.
Defined.

(** ** Bounded memory *)

Lemma do_call_within_capacity q c : within_capacity q -> within_capacity (do_call q c).
Proof.
  intros W. destruct c as [fd|]; simpl.
  - destruct (put_nowait q fd) eqn:P; simpl; [|done]. eapply within_capacity_put; eauto.
  - destruct (get_nowait q) as [[x q']|] eqn:G; simpl; [|done].
    eapply within_capacity_get; eauto.
Qed.

Lemma do_call_maxsize q c : maxsize (do_call q c) = maxsize q.
Proof.
  destruct c as [fd|]; simpl.
  - destruct (put_nowait q fd) eqn:P; simpl; [|done]. eapply maxsize_put; eauto.
  - destruct (get_nowait q) as [[x q']|] eqn:G; simpl; [|done].
    eapply maxsize_get; eauto.
Qed.

Lemma calls_bounded (n : Z) (cs : list queue_call) :
  0 < n -> qsize (foldl do_call (PyQueue.new n) cs) <= n.
Proof.
  intros Hn.
  assert (H : forall q, within_capacity q -> maxsize q = n ->
              qsize (foldl do_call q cs) <= n).
  { induction cs as [|c cs IH]; intros q W M; simpl.
    - unfold within_capacity in W. lia.
    - apply IH; [now apply do_call_within_capacity | now rewrite do_call_maxsize]. }
  apply H; [apply within_capacity_new | reflexivity].
Qed.

Lemma stream_iteration_queue cfg i s q :
  let q' := (VideoStream._stream_loop_iteration cfg i s q).2 in
  maxsize q' = maxsize q /\ (within_capacity q -> within_capacity q').
Proof.
  unfold VideoStream._stream_loop_iteration. cbv zeta.
  destruct (negb (VideoStream.cap_opened i) && negb (VideoStream.connect_ok i)); [done|].
  destruct (VideoStream.frame_skip _ =? 0); [done|].
  destruct (negb _); [done|]. destruct (Qltb _ _); [done|].
  destruct (VideoStream.read_result i) as [img|]; [|done].
  match goal with |- context [enqueue q ?fd] =>
    pose proof (enqueue_maxsize q fd) as M;
    pose proof (enqueue_within_capacity q fd) as W;
    destruct (enqueue q fd) as [o q1] end.
  simpl in *. destruct o; simpl; auto.
Qed.

Lemma process_batch_queue batch m :
  StreamManager.frame_queue (StreamManager._process_batch batch m)
  = StreamManager.frame_queue m.
Proof.
  unfold StreamManager._process_batch; simpl.
  destruct (StreamManager.frame_callback m); [|done].
  destruct (StreamManager.call_each _ _) as [[called k] raised]. done.
Qed.

Lemma step_queue_ok cfg m e : queue_ok cfg m -> queue_ok cfg (step cfg m e).
Proof.
  intros [M W]. destruct e as [c|n|cb| | |n|n i|]; simpl.
  - unfold StreamManager.add_stream. destruct (_ !! _); [done|].
    destruct (VideoStream.init c); done.
  - unfold StreamManager.remove_stream. destruct (_ !! _); done.
  - done.
  - unfold StreamManager.start. destruct (StreamManager.running m); done.
  - unfold StreamManager.stop. destruct (StreamManager.running m); done.
  - unfold StreamManager.get_frame. destruct (match n with Some _ => _ | None => _ end); [done|].
    destruct (get_nowait _) as [[fd q']|] eqn:G; [|done]. simpl. split.
    + erewrite maxsize_get; eauto.
    + eapply within_capacity_get; eauto.
  - unfold StreamManager.capture_step. destruct (_ !! _) as [s|]; [|done].
    destruct (VideoStream.running s); [|done].
    pose proof (stream_iteration_queue cfg i s (StreamManager.frame_queue m)) as [M' W'].
    destruct (VideoStream._stream_loop_iteration _ _ _ _) as [[o s'] q']. simpl in *.
    split; simpl; [congruence | auto].
  - unfold StreamManager._processing_loop_step.
    destruct (StreamManager.processing_thread m) as [|batch|]; [done| |done].
    destruct (StreamManager.running m).
    + destruct (get_nowait _) as [[fd q']|] eqn:G; [|done].
      assert (Q : queue_ok cfg (StreamManager.set_frame_queue q' m)).
      { split; simpl; [erewrite maxsize_get; eauto | eapply within_capacity_get; eauto]. }
      destruct Q as [M' W']. unfold queue_ok.
      destruct (_ <=? _); simpl; [rewrite process_batch_queue|]; done.
    + unfold queue_ok. destruct batch; simpl; [|rewrite process_batch_queue]; done.
Qed.

Lemma run_queue_ok cfg es m : queue_ok cfg m -> queue_ok cfg (run cfg es m).
Proof.
  revert m. induction es as [|e es IH]; intros m Q; simpl; [done|].
  apply IH, step_queue_ok, Q.
Qed.

(** C3.  Bounded memory: from the manager as [__init__] builds it, with a
    positive [QUEUE_SIZE], whatever the calls of its interface and the steps
    of its capture loops and of its consumer, and in whatever order, the
    shared queue never holds more than [QUEUE_SIZE] frames. *)
Theorem frame_queue_never_exceeds_capacity (cfg : Config) (now : Q) (es : list event) :
  0 < QUEUE_SIZE cfg ->
  qsize (StreamManager.frame_queue (run cfg es (StreamManager.init cfg now)))
  <= QUEUE_SIZE cfg.
Proof.
  intros Hpos.
  assert (Q0 : queue_ok cfg (StreamManager.init cfg now)).
  { split; [reflexivity | apply within_capacity_new]. }
  destruct (run_queue_ok cfg es _ Q0) as [M W].
  unfold within_capacity in W. lia.
Qed.

Lemma frame_queue_never_exceeds_capacity_witness :
  0 < QUEUE_SIZE small_queue_config
  /\ qsize (StreamManager.frame_queue
              (run small_queue_config
                 (two_frames_captured ++ [Capture "camera_0" (delivers 1002 3)])
                 (StreamManager.init small_queue_config 0)))
     <= QUEUE_SIZE small_queue_config.
Proof.
  split; [reflexivity|].
  apply (frame_queue_never_exceeds_capacity small_queue_config 0
           (two_frames_captured ++ [Capture "camera_0" (delivers 1002 3)])).
  reflexivity.
Defined.

(** The same bound for the atomic calls of the library queue, whatever
    their interleaving. *)
Lemma queue_calls_never_exceed_capacity (cfg : Config) (cs : list queue_call) :
  0 < QUEUE_SIZE cfg ->
  qsize (foldl do_call (PyQueue.new (QUEUE_SIZE cfg)) cs) <= QUEUE_SIZE cfg.
Proof. apply calls_bounded. Qed.

(** [QUEUE_SIZE] has to be positive: [queue.Queue(maxsize=0)] is unbounded. *)
Example queue_size_zero_is_unbounded :
  qsize (foldl do_call (PyQueue.new 0)
           [call_put_nowait (example_frame 1); call_put_nowait (example_frame 2)]) = 2.
Proof. reflexivity. Qed.

(** ** Overflow and the statistics *)

Lemma capture_step_stats cfg n i m :
  StreamManager.stats (StreamManager.capture_step cfg n i m).2 = StreamManager.stats m.
Proof.
  unfold StreamManager.capture_step. destruct (_ !! _) as [s|]; [|done].
  destruct (VideoStream.running s); [|done].
  destruct (VideoStream._stream_loop_iteration _ _ _ _) as [[o s'] q']. done.
Qed.

(** C4, as stated, fails: with a queue of two that is full, the third
    capture evicts the oldest frame and [dropped_frames] stays 0. *)
Lemma overflow_is_not_counted :
  ~ (forall cfg n i m o oldest m',
       StreamManager.capture_step cfg n i m = (Some o, m') ->
       VideoStream.evicted_frame o = Some oldest ->
       dropped_frames (StreamManager.stats m')
       = dropped_frames (StreamManager.stats m) + 1).
Proof.
  intros H.
  specialize (H small_queue_config "camera_0" (delivers 1002 3) queue_full_manager
                (VideoStream.Put (example_frame 3) (InsertedAfterEviction (example_frame 1)))
                (example_frame 1) third_capture.2).
  assert (E : dropped_frames (StreamManager.stats third_capture.2)
              = dropped_frames (StreamManager.stats queue_full_manager) + 1).
  { apply H; vm_compute; reflexivity. }
  vm_compute in E. discriminate.
Qed.

(** C4, amended.  An iteration of a capture loop, eviction included, leaves
    every counter of [stats] as it was: the frame evicted on overflow is
    counted nowhere. *)
Theorem overflow_leaves_stats_unchanged (cfg : Config) (n : string)
    (i : VideoStream.iteration_input) (m : StreamManager.t) :
  forall o oldest m',
    StreamManager.capture_step cfg n i m = (Some o, m') ->
    VideoStream.evicted_frame o = Some oldest ->
    StreamManager.stats m' = StreamManager.stats m
    /\ dropped_frames (StreamManager.stats m') = dropped_frames (StreamManager.stats m).
Proof.
  intros o oldest m' E _. pose proof (capture_step_stats cfg n i m) as S0.
  rewrite E in S0. simpl in S0. now rewrite S0.
Qed.

Lemma overflow_leaves_stats_unchanged_witness :
  map frame_number (items (StreamManager.frame_queue queue_full_manager)) = [1; 2]
  /\ map frame_number (items (StreamManager.frame_queue third_capture.2)) = [2; 3]
  /\ StreamManager.stats third_capture.2 = StreamManager.stats queue_full_manager
  /\ dropped_frames (StreamManager.stats third_capture.2)
     = dropped_frames (StreamManager.stats queue_full_manager).
Proof.
  split; [vm_compute; reflexivity|]. split; [vm_compute; reflexivity|].
  apply (overflow_leaves_stats_unchanged small_queue_config "camera_0"
           (delivers 1002 3) queue_full_manager
           (VideoStream.Put (example_frame 3) (InsertedAfterEviction (example_frame 1)))
           (example_frame 1) third_capture.2);
    vm_compute; reflexivity.
Defined.

(** ** The batching consumer *)

Lemma consume_frame cfg m batch fd rest :
  StreamManager.running m = true ->
  StreamManager.processing_thread m = InLoop batch ->
  items (StreamManager.frame_queue m) = fd :: rest ->
  StreamManager._processing_loop_step cfg m =
    let m1 := StreamManager.set_stats
                (StreamManager.add_total_frames 1 (StreamManager.stats m))
                (StreamManager.set_frame_queue
                   (mkQueue (maxsize (StreamManager.frame_queue m)) rest) m) in
    if BATCH_SIZE cfg <=? Z.of_nat (length (batch ++ [fd])) then
      StreamManager.set_processing_thread (InLoop [])
        (StreamManager._process_batch (batch ++ [fd]) m1)
    else StreamManager.set_processing_thread (InLoop (batch ++ [fd])) m1.
Proof.
  intros R T I. unfold StreamManager._processing_loop_step, get_nowait.
  now rewrite T, R, I.
Qed.

Lemma consume_timeout cfg m batch :
  StreamManager.running m = true ->
  StreamManager.processing_thread m = InLoop batch ->
  items (StreamManager.frame_queue m) = [] ->
  StreamManager._processing_loop_step cfg m = m.
Proof.
  intros R T I. unfold StreamManager._processing_loop_step, get_nowait.
  now rewrite T, R, I.
Qed.

Lemma consume_after_stop cfg m batch :
  StreamManager.running m = false ->
  StreamManager.processing_thread m = InLoop batch ->
  StreamManager._processing_loop_step cfg m =
    StreamManager.set_processing_thread Exited
      (match batch with
       | [] => m
       | _ :: _ => StreamManager._process_batch batch m
       end).
Proof.
  intros R T. unfold StreamManager._processing_loop_step. now rewrite T, R.
Qed.

Lemma call_each_all_return cb batch :
  Forall (fun fd => cb fd = true) batch ->
  StreamManager.call_each cb batch = (batch, Z.of_nat (length batch), false).
Proof.
  induction 1 as [|fd rest Hfd _ IH]; [reflexivity|].
  cbn [StreamManager.call_each]. rewrite Hfd, IH. f_equal. f_equal.
  rewrite length_cons. lia.
Qed.

Lemma process_batch_flushed batch m :
  StreamManager.flushed (StreamManager._process_batch batch m)
  = StreamManager.flushed m ++ [batch].
Proof.
  unfold StreamManager._process_batch; simpl.
  destruct (StreamManager.frame_callback m); [|done].
  destruct (StreamManager.call_each _ _) as [[called k] raised]. done.
Qed.

Lemma process_batch_dispatched batch m cb :
  StreamManager.frame_callback m = Some cb ->
  Forall (fun fd => cb fd = true) batch ->
  StreamManager.dispatched (StreamManager._process_batch batch m)
  = StreamManager.dispatched m ++ batch.
Proof.
  intros C F. unfold StreamManager._process_batch; simpl. rewrite C.
  now rewrite (call_each_all_return cb batch F).
Qed.

(** Below [BATCH_SIZE], the frames taken from the queue pile up in the
    accumulator and nothing is flushed. *)
Lemma consume_accumulates cfg fs : forall m batch rest,
  StreamManager.running m = true ->
  StreamManager.processing_thread m = InLoop batch ->
  items (StreamManager.frame_queue m) = fs ++ rest ->
  Z.of_nat (length batch + length fs) < BATCH_SIZE cfg ->
  let m' := run cfg (replicate (length fs) Consume) m in
  StreamManager.running m' = true
  /\ StreamManager.processing_thread m' = InLoop (batch ++ fs)
  /\ items (StreamManager.frame_queue m') = rest
  /\ StreamManager.flushed m' = StreamManager.flushed m
  /\ StreamManager.dispatched m' = StreamManager.dispatched m
  /\ StreamManager.frame_callback m' = StreamManager.frame_callback m.
Proof.
  induction fs as [|fd fs IH]; intros m batch rest R T I L; simpl.
  { rewrite app_nil_r. simpl in I. repeat split; done. }
  simpl in I. rewrite (consume_frame cfg m batch fd (fs ++ rest) R T I).
  cbv zeta. rewrite length_app in *. simpl in L |- *.
  destruct (Z.leb_spec (BATCH_SIZE cfg) (Z.of_nat (length batch + 1))) as [Hle|_]; [lia|].
  match goal with |- context [run cfg _ ?m1] =>
    destruct (IH m1 (batch ++ [fd]) rest) as (R' & T' & I' & F' & D' & C');
      [done | done | done | rewrite length_app; simpl; lia |] end.
  rewrite <- app_assoc in T'. simpl in T'. repeat split; done.
Qed.

(** C6.  Flush by size: with an empty accumulator and [BATCH_SIZE] frames
    [fs] at the head of the queue, [BATCH_SIZE] turns of the consumer take
    exactly these frames, call [_process_batch] exactly once, on [fs], and
    leave the accumulator empty; a callback that returns on each of them
    has then been called on exactly [fs], in order. *)
Theorem batch_flush_by_size (cfg : Config) (m : StreamManager.t)
    (fs rest : list frame_data) :
  0 < BATCH_SIZE cfg ->
  BATCH_SIZE cfg = Z.of_nat (length fs) ->
  StreamManager.running m = true ->
  StreamManager.processing_thread m = InLoop [] ->
  items (StreamManager.frame_queue m) = fs ++ rest ->
  let m' := run cfg (replicate (length fs) Consume) m in
  StreamManager.processing_thread m' = InLoop []
  /\ StreamManager.flushed m' = StreamManager.flushed m ++ [fs]
  /\ items (StreamManager.frame_queue m') = rest
  /\ (forall cb, StreamManager.frame_callback m = Some cb ->
        Forall (fun fd => cb fd = true) fs ->
        StreamManager.dispatched m' = StreamManager.dispatched m ++ fs).
Proof.
  intros Hpos Hsize R T I.
  destruct fs as [|f0 fs0] using rev_ind; [simpl in Hsize; lia|]. clear IHfs0.
  rewrite length_app in *. simpl length in *.
  rewrite Nat.add_1_r. rewrite <- Nat.add_1_r.
  rewrite replicate_add. unfold run. rewrite foldl_app. fold (run cfg).
  rewrite <- app_assoc in I.
  destruct (consume_accumulates cfg fs0 m [] ([f0] ++ rest) R T I)
    as (R1 & T1 & I1 & F1 & D1 & C1); [simpl; lia|].
  simpl in T1, I1. cbv zeta. cbn [replicate foldl step].
  change (foldl (step cfg) m (replicate (length fs0) Consume))
    with (run cfg (replicate (length fs0) Consume) m).
  rewrite (consume_frame cfg _ fs0 f0 rest R1 T1 I1). cbv zeta.
  destruct (Z.leb_spec (BATCH_SIZE cfg) (Z.of_nat (length (fs0 ++ [f0])))) as [_|Hlt];
    [|rewrite length_app in Hlt; simpl in Hlt; lia].
  split; [reflexivity|]. split.
  { simpl. rewrite process_batch_flushed. simpl. now rewrite F1. }
  split.
  { simpl. now rewrite process_batch_queue. }
  intros cb Hcb Hall. simpl.
  erewrite process_batch_dispatched; [| simpl; rewrite C1; exact Hcb | exact Hall].
  simpl. now rewrite D1.
Qed.

Lemma batch_flush_by_size_witness :
  StreamManager.processing_thread
    (run small_batch_config [Consume; Consume] three_frames_waiting) = InLoop []
  /\ StreamManager.flushed
       (run small_batch_config [Consume; Consume] three_frames_waiting)
     = [[example_frame 1; example_frame 2]]
  /\ items (StreamManager.frame_queue
              (run small_batch_config [Consume; Consume] three_frames_waiting))
     = [example_frame 3]
  /\ StreamManager.dispatched
       (run small_batch_config [Consume; Consume] three_frames_waiting)
     = [example_frame 1; example_frame 2].
Proof.
  destruct (batch_flush_by_size small_batch_config three_frames_waiting
              [example_frame 1; example_frame 2] [example_frame 3])
    as (T & F & I & D); try (vm_compute; reflexivity).
  split; [exact T|]. split; [exact F|]. split; [exact I|].
  apply (D (fun _ => true)); [vm_compute; reflexivity|].
  repeat constructor.
Defined.

(** C5.  What the code does at a timeout.  With one frame in the accumulator, an
    empty queue and [BATCH_SIZE = 10], a turn of the consumer whose [get]
    times out changes nothing, however often it happens: no batch is
    flushed and the frame stays in the accumulator. *)
Theorem timeout_does_not_flush (k : nat) :
  StreamManager.processing_thread one_frame_pending = InLoop [example_frame 1]
  /\ items (StreamManager.frame_queue one_frame_pending) = []
  /\ StreamManager.running one_frame_pending = true
  /\ run default_config (replicate k Consume) one_frame_pending = one_frame_pending
  /\ StreamManager.flushed
       (run default_config (replicate k Consume) one_frame_pending) = [].
Proof.
  assert (T : StreamManager.processing_thread one_frame_pending
              = InLoop [example_frame 1]) by (vm_compute; reflexivity).
  assert (I : items (StreamManager.frame_queue one_frame_pending) = [])
    by (vm_compute; reflexivity).
  assert (R : StreamManager.running one_frame_pending = true)
    by (vm_compute; reflexivity).
  assert (E : run default_config (replicate k Consume) one_frame_pending
              = one_frame_pending).
  { induction k as [|k IH]; [reflexivity|]. simpl.
    rewrite (consume_timeout default_config one_frame_pending _ R T I). exact IH. }
  repeat split; try assumption. rewrite E. vm_compute; reflexivity.
Qed.

(** ** Shutdown *)

Lemma stop_running m : StreamManager.running (StreamManager.stop m) = false.
Proof. unfold StreamManager.stop. destruct (StreamManager.running m) eqn:R; done. Qed.

Lemma stop_keeps m :
  StreamManager.frame_queue (StreamManager.stop m) = StreamManager.frame_queue m
  /\ StreamManager.processing_thread (StreamManager.stop m)
     = StreamManager.processing_thread m
  /\ StreamManager.flushed (StreamManager.stop m) = StreamManager.flushed m.
Proof. unfold StreamManager.stop. destruct (StreamManager.running m); done. Qed.

(** C9, as stated, fails: with frames 2 and 3 in the queue and frame 1 in
    the accumulator, stopping lets the consumer exit after flushing frame 1
    only; frames 2 and 3 are still in the queue and in no flushed batch. *)
Lemma shutdown_does_not_drain_queue :
  ~ (forall cfg m fd,
       let m' := run cfg [Stop; Consume] m in
       StreamManager.running m = true ->
       StreamManager.processing_thread m' = Exited ->
       fd ∈ items (StreamManager.frame_queue m) ->
       items (StreamManager.frame_queue m') = []
       /\ exists batch, batch ∈ StreamManager.flushed m' /\ fd ∈ batch).
Proof.
  intros H.
  destruct (H default_config two_frames_buffered (example_frame 2)) as [E _].
  - vm_compute; reflexivity.
  - vm_compute; reflexivity.
  - vm_compute. apply list_elem_of_here.
  - vm_compute in E. discriminate.
Qed.

(** C9, amended.  Once [stop] has cleared [running], the next turn of the
    consumer leaves the loop without another [get]: the queue keeps every
    frame it holds, exactly the accumulated partial batch is flushed (when
    it is not empty), and the consumer thread exits. *)
Theorem shutdown_flushes_partial_batch_only (cfg : Config) (m : StreamManager.t)
    (batch : list frame_data) :
  StreamManager.processing_thread m = InLoop batch ->
  let m' := run cfg [Stop; Consume] m in
  StreamManager.processing_thread m' = Exited
  /\ StreamManager.frame_queue m' = StreamManager.frame_queue m
  /\ StreamManager.flushed m'
     = StreamManager.flushed m ++ match batch with [] => [] | _ :: _ => [batch] end.
Proof.
  intros T. simpl.
  destruct (stop_keeps m) as (Q & T' & F). rewrite T in T'.
  rewrite (consume_after_stop cfg _ batch (stop_running m) T').
  split; [reflexivity|]. destruct batch as [|fd batch]; simpl.
  - now rewrite Q, F, app_nil_r.
  - now rewrite process_batch_queue, process_batch_flushed, Q, F.
Qed.

Lemma shutdown_flushes_partial_batch_only_witness :
  StreamManager.processing_thread two_frames_buffered = InLoop [example_frame 1]
  /\ StreamManager.processing_thread
       (run default_config [Stop; Consume] two_frames_buffered) = Exited
  /\ items (StreamManager.frame_queue
              (run default_config [Stop; Consume] two_frames_buffered))
     = [example_frame 2; example_frame 3]
  /\ StreamManager.flushed (run default_config [Stop; Consume] two_frames_buffered)
     = [[example_frame 1]].
Proof.
  assert (T : StreamManager.processing_thread two_frames_buffered
              = InLoop [example_frame 1]) by (vm_compute; reflexivity).
  destruct (shutdown_flushes_partial_batch_only default_config two_frames_buffered
              [example_frame 1] T) as (E & Q & F).
  split; [exact T|]. split; [exact E|]. split.
  - rewrite Q. vm_compute; reflexivity.
  - rewrite F. vm_compute; reflexivity.
Defined.

(** After its exit the consumer does nothing more. *)
Lemma consumer_exited_is_final cfg m :
  StreamManager.processing_thread m = Exited ->
  StreamManager._processing_loop_step cfg m = m.
Proof. intros T. unfold StreamManager._processing_loop_step. now rewrite T. Qed.

(** ** Frame skipping *)

Lemma init_frame_skip c s :
  VideoStream.init c = Some s ->
  VideoStream.frame_skip s = VideoStream.frame_skip_of (max_fps c)
  /\ VideoStream.frame_count s = 0 /\ max_fps c <> 0.
Proof.
  unfold VideoStream.init. destruct (Z.eqb_spec (max_fps c) 0) as [|Hne]; [discriminate|].
  intros [= <-]. auto.
Qed.

Lemma frame_skip_of_floor (m : Z) :
  0 < m -> VideoStream.frame_skip_of m = Z.max 1 (30 / m).
Proof.
  intros Hm. unfold VideoStream.frame_skip_of.
  now rewrite Z.quot_div_nonneg by lia.
Qed.

Lemma frame_skip_of_bounds (m : Z) :
  0 < m <= 30 ->
  VideoStream.frame_skip_of m * m <= 30 < (VideoStream.frame_skip_of m + 1) * m.
Proof.
  intros Hm. rewrite frame_skip_of_floor by lia.
  assert (1 <= 30 / m) by (apply Z.div_le_lower_bound; lia).
  rewrite Z.max_r by lia.
  pose proof (Z.mul_div_le 30 m ltac:(lia)).
  pose proof (Z.mul_succ_div_gt 30 m ltac:(lia)). nia.
Qed.

Lemma iteration_skips cfg i s q :
  VideoStream.cap_opened i || VideoStream.connect_ok i = true ->
  VideoStream.frame_skip s <> 0 ->
  (VideoStream._stream_loop_iteration cfg i s q).1.1 = VideoStream.FrameSkipped
  <-> (VideoStream.frame_count s + 1) mod VideoStream.frame_skip s <> 0.
Proof.
  intros Hc Hs. unfold VideoStream._stream_loop_iteration. cbv zeta.
  replace (negb (VideoStream.cap_opened i) && negb (VideoStream.connect_ok i))
    with false by (destruct (VideoStream.cap_opened i), (VideoStream.connect_ok i); done).
  simpl VideoStream.frame_skip. simpl VideoStream.frame_count.
  destruct (Z.eqb_spec (VideoStream.frame_skip s) 0) as [|_]; [done|].
  destruct (Z.eqb_spec ((VideoStream.frame_count s + 1) mod VideoStream.frame_skip s) 0)
    as [E|E]; simpl.
  - split; [|done]. destruct (Qltb _ _); [done|].
    destruct (VideoStream.read_result i); [|done].
    destruct (enqueue _ _) as [[] ?]; done.
  - done.
Qed.

(** C7, as stated, fails: at 8 fps the code computes [int(3.75) = 3], and
    3.75 rounds to 4. *)
Lemma frame_skip_is_not_rounded :
  ~ (forall c s, VideoStream.init c = Some s ->
       VideoStream.frame_skip s = VideoStream.spec_frame_skip 30 (max_fps c)).
Proof.
  intros H.
  specialize (H camera_8 (default (VideoStream.mk camera_8 false 0 0 0 0)
                            (VideoStream.init camera_8)) eq_refl).
  vm_compute in H. discriminate.
Qed.

(** Whatever the rule for ties, 4 is the only integer within 1/2 of 30/8. *)
Lemma nearest_to_30_over_8 (r : Z) :
  (Qabs ((30 # 8) - inject_Z r) <= (1 # 2))%Q -> r = 4.
Proof.
  intros H. apply Qabs_Qle_condition in H. destruct H as [H1 H2].
  unfold Qle, Qminus, Qplus, Qopp, inject_Z in *; simpl in *. lia.
Qed.

(** C7, amended.  [frame_skip] is the quotient of the constant 30 by
    [max_fps], truncated (not rounded) and clamped below at 1: for a
    positive [max_fps] it is [max 1 (floor (30 / max_fps))], the largest
    [k] with [k * max_fps <= 30] when [max_fps <= 30].  An iteration of
    the loop that is connected goes on to the later checks exactly when the
    incremented iteration counter is a multiple of [frame_skip]. *)
Theorem frame_skip_is_truncated_quotient (c : StreamConfig) (s : VideoStream.t) :
  VideoStream.init c = Some s ->
  VideoStream.frame_skip s = Z.max 1 (Z.quot 30 (max_fps c))
  /\ 1 <= VideoStream.frame_skip s
  /\ (0 < max_fps c -> VideoStream.frame_skip s = Z.max 1 (30 / max_fps c))
  /\ (0 < max_fps c <= 30 ->
      VideoStream.frame_skip s * max_fps c <= 30
      < (VideoStream.frame_skip s + 1) * max_fps c)
  /\ (forall cfg i q s',
        VideoStream.frame_skip s' = VideoStream.frame_skip s ->
        VideoStream.cap_opened i || VideoStream.connect_ok i = true ->
        (VideoStream._stream_loop_iteration cfg i s' q).1.1 = VideoStream.FrameSkipped
        <-> (VideoStream.frame_count s' + 1) mod VideoStream.frame_skip s <> 0).
Proof.
  intros Hi. destruct (init_frame_skip c s Hi) as (Hs & _ & _). rewrite Hs.
  split; [reflexivity|]. split; [unfold VideoStream.frame_skip_of; lia|].
  split; [apply frame_skip_of_floor|]. split; [apply frame_skip_of_bounds|].
  intros cfg i q s' Hs' Hc. rewrite <- Hs'. apply iteration_skips; [done|].
  rewrite Hs'. unfold VideoStream.frame_skip_of. lia.
Qed.

Lemma frame_skip_is_truncated_quotient_witness :
  VideoStream.init camera_8
  = Some (VideoStream.mk camera_8 false 0 (1 / inject_Z 8) 3 0)
  /\ 3 = Z.max 1 (Z.quot 30 8)
  /\ 3 * 8 <= 30 < (3 + 1) * 8.
Proof.
  destruct (frame_skip_is_truncated_quotient camera_8
              (VideoStream.mk camera_8 false 0 (1 / inject_Z 8) 3 0) eq_refl)
    as (H1 & _ & _ & H4 & _).
  split; [reflexivity|]. split; [exact H1|]. apply H4. simpl. lia.
Defined.

(** ** Sequence numbers *)

Lemma iteration_frame_count cfg i s q :
  let r := VideoStream._stream_loop_iteration cfg i s q in
  VideoStream.frame_count r.1.2
  = VideoStream.frame_count s + (if VideoStream.counted r.1.1 then 1 else 0)
  /\ (forall fd, VideoStream.enqueued_frame r.1.1 = Some fd ->
        frame_number fd = VideoStream.frame_count s + 1).
Proof.
  unfold VideoStream._stream_loop_iteration. cbv zeta.
  destruct (negb (VideoStream.cap_opened i) && negb (VideoStream.connect_ok i)).
  { simpl. split; [lia | discriminate]. }
  destruct (VideoStream.frame_skip _ =? 0); [simpl; split; [lia | discriminate]|].
  destruct (negb _); [simpl; split; [lia | discriminate]|].
  destruct (Qltb _ _); [simpl; split; [lia | discriminate]|].
  destruct (VideoStream.read_result i) as [img|]; [|simpl; split; [lia | discriminate]].
  destruct (enqueue _ _) as [[] q']; simpl; (split; [lia|]); intros fd [= <-];
    reflexivity.
Qed.

Lemma run_cons cfg i q steps s :
  VideoStream.run cfg ((i, q) :: steps) s
  = let r := VideoStream._stream_loop_iteration cfg i s q in
    (r.1.1 :: (VideoStream.run cfg steps r.1.2).1, (VideoStream.run cfg steps r.1.2).2).
Proof.
  simpl. destruct (VideoStream._stream_loop_iteration cfg i s q) as [[o s1] q1].
  simpl. destruct (VideoStream.run cfg steps s1) as [os s2]. reflexivity.
Qed.

Lemma run_frame_numbers cfg steps : forall s,
  let r := VideoStream.run cfg steps s in
  VideoStream.frame_count r.2
  = VideoStream.frame_count s
    + Z.of_nat (length (filter (fun o => VideoStream.counted o = true) r.1))
  /\ Forall (fun n => VideoStream.frame_count s < n <= VideoStream.frame_count r.2)
       (VideoStream.enqueued_numbers r.1)
  /\ StronglySorted Z.lt (VideoStream.enqueued_numbers r.1).
Proof.
  induction steps as [|[i q] steps IH]; intros s.
  { simpl. split; [lia|]. split; constructor. }
  rewrite run_cons. cbv zeta.
  destruct (iteration_frame_count cfg i s q) as [Hc Hn].
  set (r := VideoStream._stream_loop_iteration cfg i s q) in *.
  destruct (IH r.1.2) as (Kc & Kb & Ks).
  set (rest := VideoStream.run cfg steps r.1.2) in *.
  cbn [fst snd].
  assert (Hmono : VideoStream.frame_count s <= VideoStream.frame_count r.1.2)
    by (rewrite Hc; destruct (VideoStream.counted _); lia).
  split.
  { rewrite Kc, Hc, filter_cons. destruct (VideoStream.counted r.1.1) eqn:C.
    - rewrite decide_True by done. rewrite length_cons. lia.
    - rewrite decide_False by discriminate. lia. }
  assert (Kb' : Forall (fun n => VideoStream.frame_count s < n
                                 <= VideoStream.frame_count rest.2)
                  (VideoStream.enqueued_numbers rest.1)).
  { eapply Forall_impl; [exact Kb|]. simpl. intros n Hn'. lia. }
  unfold VideoStream.enqueued_numbers in *. cbn [omap list_omap].
  destruct (VideoStream.enqueued_frame r.1.1) as [fd|] eqn:E; [|split; assumption].
  pose proof (Hn fd eq_refl) as Hfd. cbn [map].
  assert (Hcnt : VideoStream.frame_count r.1.2 = VideoStream.frame_count s + 1).
  { rewrite Hc. destruct r.1.1; try discriminate; reflexivity. }
  split.
  - constructor; [|exact Kb']. rewrite Hfd.
    split; [lia|]. rewrite Kc, Hcnt. lia.
  - constructor; [exact Ks|]. rewrite Hfd.
    eapply Forall_impl; [exact Kb|]. simpl. intros n Hn'. lia.
Qed.

Lemma iteration_multiple cfg i s q :
  let r := VideoStream._stream_loop_iteration cfg i s q in
  VideoStream.frame_skip r.1.2 = VideoStream.frame_skip s
  /\ (forall fd, VideoStream.enqueued_frame r.1.1 = Some fd ->
        frame_number fd mod VideoStream.frame_skip s = 0).
Proof.
  unfold VideoStream._stream_loop_iteration. cbv zeta.
  destruct (negb (VideoStream.cap_opened i) && negb (VideoStream.connect_ok i));
    [simpl; split; [done | discriminate]|].
  destruct (VideoStream.frame_skip _ =? 0); [simpl; split; [done | discriminate]|].
  simpl VideoStream.frame_skip. simpl VideoStream.frame_count.
  destruct (Z.eqb_spec ((VideoStream.frame_count s + 1) mod VideoStream.frame_skip s) 0)
    as [E|E]; simpl negb; cbv iota; [|simpl; split; [done | discriminate]].
  destruct (Qltb _ _); [simpl; split; [done | discriminate]|].
  destruct (VideoStream.read_result i) as [img|]; [|simpl; split; [done | discriminate]].
  destruct (enqueue _ _) as [[] q']; simpl; (split; [done|]); intros fd [= <-];
    exact E.
Qed.

Lemma run_multiples cfg steps : forall s,
  Forall (fun n => n mod VideoStream.frame_skip s = 0)
    (VideoStream.enqueued_numbers (VideoStream.run cfg steps s).1).
Proof.
  induction steps as [|[i q] steps IH]; intros s; [constructor|].
  rewrite run_cons. cbv zeta. cbn [fst].
  destruct (iteration_multiple cfg i s q) as [Hs Hm].
  specialize (IH (VideoStream._stream_loop_iteration cfg i s q).1.2).
  rewrite Hs in IH.
  unfold VideoStream.enqueued_numbers in *. cbn [omap list_omap].
  destruct (VideoStream.enqueued_frame _) as [fd|] eqn:E; [|exact IH].
  cbn [map]. constructor; [now apply Hm | exact IH].
Qed.

(** C8, as stated, fails: a 15 fps stream has [frame_skip = 2]; over four
    iterations, none of which overflows the queue, it enqueues the frames
    numbered 2 and 4. *)
Lemma sequence_numbers_have_gaps_without_eviction :
  ~ (forall cfg c s0 steps,
       VideoStream.init c = Some s0 ->
       let os := (VideoStream.run cfg steps (VideoStream.start s0)).1 in
       omap VideoStream.evicted_frame os = [] ->
       forall k a b,
         VideoStream.enqueued_numbers os !! k = Some a ->
         VideoStream.enqueued_numbers os !! S k = Some b ->
         b = a + 1).
Proof.
  intros H.
  specialize (H default_config camera_15
                (VideoStream.mk camera_15 false 0 (1 / inject_Z 15) 2 0)
                four_iterations eq_refl eq_refl 0%nat 2 4 eq_refl eq_refl).
  discriminate.
Qed.

(** C8, amended.  The number attached to a frame is the iteration counter
    of the loop.  Along the life of a stream object the numbers of the
    frames it enqueues are strictly increasing, but the counter advances at
    every iteration that gets past the connection check, whether or not it
    enqueues: the numbers are multiples of [frame_skip], and frame-skip,
    the interval gate and failed reads all leave gaps, so a gap does not
    tell a bus-level drop. *)
Theorem frame_numbers_strictly_increase (cfg : Config) (c : StreamConfig)
    (s0 : VideoStream.t) (steps : list (VideoStream.iteration_input * FrameQueue)) :
  VideoStream.init c = Some s0 ->
  let r := VideoStream.run cfg steps (VideoStream.start s0) in
  StronglySorted Z.lt (VideoStream.enqueued_numbers r.1)
  /\ Forall (fun n => 0 < n <= VideoStream.frame_count r.2)
       (VideoStream.enqueued_numbers r.1)
  /\ VideoStream.frame_count r.2
     = Z.of_nat (length (filter (fun o => VideoStream.counted o = true) r.1))
  /\ Forall (fun n => n mod VideoStream.frame_skip s0 = 0)
       (VideoStream.enqueued_numbers r.1).
Proof.
  intros Hi r. destruct (init_frame_skip c s0 Hi) as (_ & H0 & _).
  assert (Hstart : VideoStream.frame_count (VideoStream.start s0) = 0
                   /\ VideoStream.frame_skip (VideoStream.start s0)
                      = VideoStream.frame_skip s0).
  { unfold VideoStream.start. destruct (VideoStream.running s0); simpl; auto. }
  destruct Hstart as [Hc0 Hk0].
  destruct (run_frame_numbers cfg steps (VideoStream.start s0)) as (Kc & Kb & Ks).
  fold r in Kc, Kb, Ks. rewrite Hc0 in Kc, Kb.
  split; [exact Ks|]. split; [exact Kb|]. split; [rewrite Kc; lia|].
  rewrite <- Hk0. apply run_multiples.
Qed.

Lemma frame_numbers_strictly_increase_witness :
  VideoStream.enqueued_numbers
    (VideoStream.run default_config four_iterations
       (VideoStream.start (VideoStream.mk camera_15 false 0 (1 / inject_Z 15) 2 0))).1
  = [2; 4]
  /\ StronglySorted Z.lt
       (VideoStream.enqueued_numbers
          (VideoStream.run default_config four_iterations
             (VideoStream.start
                (VideoStream.mk camera_15 false 0 (1 / inject_Z 15) 2 0))).1).
Proof.
  split; [reflexivity|].
  apply (frame_numbers_strictly_increase default_config camera_15
           (VideoStream.mk camera_15 false 0 (1 / inject_Z 15) 2 0)
           four_iterations eq_refl).
Defined.

(** ** Alerts *)

Lemma send_alert_always_sends cfg d :
  exists msg rest,
    Tasks.send_alert cfg d
    = (Tasks.sent msg, rest ++ [Tasks.alert_record d msg; Tasks.mqtt_alert d]).
Proof. unfold Tasks.send_alert. simpl. eauto. Qed.

(** C1.  What the code does on the cooldown scenario.  Under the default
    configuration (cooldown 300, at least 3 violations), three results of
    camera_0 with 3 violations each, at t = 0, 100 and 301, are all sent,
    the one at t = 100 included, although the gate of the specification
    refuses it; and a result with a single violation, which [process_frame]
    does pass on to [send_alert], is sent as well. *)
Theorem send_alert_ignores_cooldown_and_threshold :
  map (fun d => (Tasks.send_alert default_config d).1)
    [alert_at 0 3; alert_at 100 3; alert_at 301 3]
  = [Tasks.sent (Tasks._prepare_alert_message (alert_at 0 3));
     Tasks.sent (Tasks._prepare_alert_message (alert_at 100 3));
     Tasks.sent (Tasks._prepare_alert_message (alert_at 301 3))]
  /\ Tasks.spec_alert_eligible default_config 0 100 3 = false
  /\ Tasks.spec_alert_eligible default_config 0 301 3 = true
  /\ (Tasks.send_alert default_config (alert_at 500 1)).1
     = Tasks.sent (Tasks._prepare_alert_message (alert_at 500 1))
  /\ (forall last_alert_at,
        Tasks.spec_alert_eligible default_config last_alert_at 500 1 = false)
  /\ (Tasks.process_frame (frame_at 500) [unmasked]).2
     = [Tasks.save_detection_task (alert_at 500 1);
        Tasks.send_alert_task (alert_at 500 1)].
Proof.
  split; [reflexivity|]. split; [reflexivity|]. split; [reflexivity|].
  split; [reflexivity|]. split; [intros last; reflexivity | reflexivity].
Qed.

(** ** Compliance rate *)


(** * Properties of the rest of the pipeline *)

(** ** Conservation of frames by the consumer *)

Lemma process_batch_thread batch m :
  StreamManager.processing_thread (StreamManager._process_batch batch m)
  = StreamManager.processing_thread m.
Proof.
  unfold StreamManager._process_batch; simpl.
  destruct (StreamManager.frame_callback m); [|done].
  destruct (StreamManager.call_each _ _) as [[called k] raised]. done.
Qed.

Lemma consume_keeps_pipeline cfg m :
  pipeline_contents (StreamManager._processing_loop_step cfg m) = pipeline_contents m.
Proof.
  unfold StreamManager._processing_loop_step.
  destruct (StreamManager.processing_thread m) as [|batch|] eqn:T; [done| |done].
  destruct (StreamManager.running m).
  - destruct (get_nowait _) as [[fd q']|] eqn:G; [|done].
    unfold get_nowait in G. destruct (items (StreamManager.frame_queue m)) as [|x rest] eqn:I;
      [discriminate|]. injection G as -> <-.
    unfold pipeline_contents at 2. unfold pending. rewrite T, I.
    destruct (_ <=? _).
    + unfold pipeline_contents, pending. simpl.
      rewrite process_batch_flushed, process_batch_queue. simpl.
      rewrite concat_app. simpl. rewrite app_nil_r, <- !app_assoc. reflexivity.
    + unfold pipeline_contents, pending. simpl. rewrite <- !app_assoc. reflexivity.
  - unfold pipeline_contents at 2. unfold pending. rewrite T.
    destruct batch as [|fd batch]; unfold pipeline_contents, pending; simpl; [done|].
    rewrite process_batch_flushed, process_batch_queue. simpl.
    rewrite concat_app. simpl. rewrite app_nil_r, <- !app_assoc. reflexivity.
Qed.

(** X1.  The consumer neither loses, duplicates nor reorders frames:
    whatever the number of its turns (taking frames, flushing on a full
    batch, timing out, or leaving the loop after a stop), the flushed
    batches laid end to end, followed by the accumulator and by the queue,
    stay the same sequence of frames. *)
Theorem consumer_conserves_frames (cfg : Config) (k : nat) (m : StreamManager.t) :
  pipeline_contents (run cfg (replicate k Consume) m) = pipeline_contents m.
Proof.
  revert m. induction k as [|k IH]; intros m; [reflexivity|].
  simpl. change (foldl (step cfg) ?x ?l) with (run cfg l x).
  rewrite IH. apply consume_keeps_pipeline.
Qed.

(** ** What [_process_batch] does to the manager *)

Lemma call_each_counts cb batch :
  let r := StreamManager.call_each cb batch in
  0 <= r.1.2 /\ r.1.2 <= Z.of_nat (length r.1.1)
  /\ (length r.1.1 <= length batch)%nat
  /\ (r.2 = false -> r.1.1 = batch /\ r.1.2 = Z.of_nat (length batch))
  /\ (forall P : frame_data -> Prop, Forall P batch -> Forall P r.1.1).
Proof.
  induction batch as [|fd rest IH]; simpl.
  { repeat split; auto; lia. }
  destruct (cb fd); simpl.
  - destruct (StreamManager.call_each cb rest) as [[called n] raised]. simpl in *.
    destruct IH as (H0 & H1 & H2 & H3 & H4). repeat split; try lia.
    + destruct (H3 H) as [-> _]. reflexivity.
    + destruct (H3 H) as [_ ->]. lia.
    + intros P HP. inversion HP; subst. constructor; auto.
  - repeat split; try lia; try discriminate.
    intros P HP. inversion HP; subst. constructor; auto.
Qed.

Lemma process_batch_effect batch m :
  let m' := StreamManager._process_batch batch m in
  exists (called : list frame_data) (n : Z) (raised : bool),
    StreamManager.streams m' = StreamManager.streams m
    /\ StreamManager.running m' = StreamManager.running m
    /\ StreamManager.frame_callback m' = StreamManager.frame_callback m
    /\ StreamManager.flushed m' = StreamManager.flushed m ++ [batch]
    /\ StreamManager.dispatched m' = StreamManager.dispatched m ++ called
    /\ total_frames (StreamManager.stats m') = total_frames (StreamManager.stats m)
    /\ processed_frames (StreamManager.stats m')
       = processed_frames (StreamManager.stats m) + n
    /\ dropped_frames (StreamManager.stats m')
       = dropped_frames (StreamManager.stats m)
         + (if raised then Z.of_nat (length batch) else 0)
    /\ 0 <= n /\ n <= Z.of_nat (length called)
    /\ (length called <= length batch)%nat
    /\ (forall P : frame_data -> Prop, Forall P batch -> Forall P called)
    /\ match StreamManager.frame_callback m with
       | None => called = [] /\ raised = false
       | Some cb => StreamManager.call_each cb batch = (called, n, raised)
       end.
Proof.
  unfold StreamManager._process_batch; simpl.
  destruct (StreamManager.frame_callback m) as [cb|] eqn:C.
  - pose proof (call_each_counts cb batch) as H.
    destruct (StreamManager.call_each cb batch) as [[called n] raised]. simpl in H.
    destruct H as (H0 & H1 & H2 & _ & H4).
    exists called, n, raised. simpl. rewrite C.
    destruct raised; simpl; repeat split; auto; lia.
  - exists [], 0, false. simpl. rewrite C, app_nil_r.
    repeat split; auto; lia.
Qed.

Lemma consume_streams cfg m :
  StreamManager.streams (StreamManager._processing_loop_step cfg m)
  = StreamManager.streams m
  /\ StreamManager.running (StreamManager._processing_loop_step cfg m)
     = StreamManager.running m.
Proof.
  unfold StreamManager._processing_loop_step.
  destruct (StreamManager.processing_thread m) as [|batch|]; [done| |done].
  destruct (StreamManager.running m) eqn:R.
  - destruct (get_nowait _) as [[fd q']|]; [|done].
    destruct (_ <=? _); simpl; [|done].
    match goal with |- context [StreamManager._process_batch ?b ?x] =>
      destruct (process_batch_effect b x) as (c & n & r & Hs & Hr & _) end.
    simpl in *. now rewrite Hs, Hr.
  - destruct batch as [|fd batch]; simpl; [done|].
    destruct (process_batch_effect (fd :: batch) m) as (c & n & r & Hs & Hr & _).
    simpl in *. now rewrite Hs, Hr.
Qed.

(** ** Invariants of the registered streams *)

Lemma iteration_stream cfg i s q :
  let r := VideoStream._stream_loop_iteration cfg i s q in
  VideoStream.config r.1.2 = VideoStream.config s
  /\ VideoStream.running r.1.2 = VideoStream.running s
  /\ VideoStream.frame_skip r.1.2 = VideoStream.frame_skip s
  /\ VideoStream.frame_interval r.1.2 = VideoStream.frame_interval s
  /\ VideoStream.frame_count s <= VideoStream.frame_count r.1.2.
Proof.
  unfold VideoStream._stream_loop_iteration. cbv zeta.
  destruct (negb (VideoStream.cap_opened i) && negb (VideoStream.connect_ok i));
    [simpl; repeat split; lia|].
  destruct (VideoStream.frame_skip _ =? 0); [simpl; repeat split; lia|].
  destruct (negb _); [simpl; repeat split; lia|].
  destruct (Qltb _ _); [simpl; repeat split; lia|].
  destruct (VideoStream.read_result i) as [img|]; [|simpl; repeat split; lia].
  destruct (enqueue _ _) as [[] q']; simpl; repeat split; lia.
Qed.

Lemma init_stream_ok c s :
  VideoStream.init c = Some s -> stream_ok (name c) false s.
Proof.
  unfold VideoStream.init. destruct (Z.eqb_spec (max_fps c) 0) as [|Hne]; [discriminate|].
  intros [= <-]. unfold stream_ok; simpl. repeat split; auto; lia.
Qed.

Lemma stream_ok_set_running n r r' s :
  stream_ok n r s -> stream_ok n r' (VideoStream.set_running r' s).
Proof. unfold stream_ok; simpl. tauto. Qed.

Lemma stream_ok_start n r s : stream_ok n r s -> stream_ok n true (VideoStream.start s).
Proof.
  intros H. unfold VideoStream.start. destruct (VideoStream.running s) eqn:R.
  - unfold stream_ok in *. rewrite R. tauto.
  - eapply stream_ok_set_running; eauto.
Qed.

Lemma step_streams_ok cfg m e : streams_ok m -> streams_ok (step cfg m e).
Proof.
  intros H. destruct e as [c|n|cb| | |n|n i|]; simpl.
  - unfold StreamManager.add_stream.
    destruct (StreamManager.streams m !! name c) eqn:L; [done|].
    destruct (VideoStream.init c) as [s|] eqn:I; [|done].
    intros n' s'. simpl. rewrite lookup_insert. case_decide as E.
    + intros [= <-]. subst n'. pose proof (init_stream_ok c s I) as Hs.
      destruct (StreamManager.running m); [eapply stream_ok_start; eauto | done].
    + apply H.
  - unfold StreamManager.remove_stream.
    destruct (StreamManager.streams m !! n) eqn:L; [|done].
    intros n' s'. simpl. rewrite lookup_delete. case_decide; [discriminate|]. apply H.
  - exact H.
  - unfold StreamManager.start. destruct (StreamManager.running m) eqn:R; [done|].
    intros n' s'. simpl. rewrite lookup_fmap.
    destruct (StreamManager.streams m !! n') as [s|] eqn:L; [|discriminate].
    intros [= <-]. eapply stream_ok_start. apply (H n' s L).
  - unfold StreamManager.stop. destruct (StreamManager.running m) eqn:R; [|done].
    intros n' s'. simpl. rewrite lookup_fmap.
    destruct (StreamManager.streams m !! n') as [s|] eqn:L; [|discriminate].
    intros [= <-]. eapply stream_ok_set_running. apply (H n' s L).
  - unfold StreamManager.get_frame.
    destruct (match n with Some _ => _ | None => _ end); [done|].
    destruct (get_nowait _) as [[fd q']|]; done.
  - unfold StreamManager.capture_step.
    destruct (StreamManager.streams m !! n) as [s|] eqn:L; [|done].
    destruct (VideoStream.running s) eqn:R; [|done].
    pose proof (iteration_stream cfg i s (StreamManager.frame_queue m)) as It.
    destruct (VideoStream._stream_loop_iteration _ _ _ _) as [[o s1] q1].
    simpl in It. destruct It as (Hc & Hr & Hk & Hi & Hn).
    intros n' s'. simpl. rewrite lookup_insert. case_decide as E; [|apply H].
    intros [= <-]. subst n'. destruct (H n s L) as (A & B & C & D & F & G).
    unfold stream_ok. rewrite Hc, Hr, Hk, Hi. repeat split; auto. lia.
  - destruct (consume_streams cfg m) as [Hs Hr].
    intros n' s'. unfold streams_ok in H. rewrite Hs, Hr. apply H.
Qed.

Lemma run_streams_ok cfg es m : streams_ok m -> streams_ok (run cfg es m).
Proof.
  revert m. induction es as [|e es IH]; intros m Q; simpl; [done|].
  apply IH, step_streams_ok, Q.
Qed.

Lemma init_streams_ok cfg now : streams_ok (StreamManager.init cfg now).
Proof. intros n s. simpl. rewrite lookup_empty. discriminate. Qed.

(** X2.  In every state the manager can reach from [__init__], each stream
    is registered under the name of its own configuration and carries the
    [frame_skip >= 1] that [__init__] computed, so a step of a capture
    loop never fails on the modulo: its outcome is never [LoopError]. *)
Theorem capture_loop_never_divides_by_zero (cfg : Config) (now : Q)
    (es : list event) (n : string) (i : VideoStream.iteration_input) :
  let m := run cfg es (StreamManager.init cfg now) in
  (forall s, StreamManager.streams m !! n = Some s ->
     name (VideoStream.config s) = n /\ 1 <= VideoStream.frame_skip s)
  /\ (StreamManager.capture_step cfg n i m).1 <> Some VideoStream.LoopError.
Proof.
  intros m.
  assert (H : streams_ok m) by apply run_streams_ok, init_streams_ok.
  assert (K : forall s, StreamManager.streams m !! n = Some s ->
            name (VideoStream.config s) = n /\ 1 <= VideoStream.frame_skip s).
  { intros s L. destruct (H n s L) as (A & _ & _ & D & _). split; [done|].
    rewrite D. unfold VideoStream.frame_skip_of. lia. }
  split; [exact K|].
  unfold StreamManager.capture_step.
  destruct (StreamManager.streams m !! n) as [s|] eqn:L; [|discriminate].
  destruct (VideoStream.running s); [|discriminate].
  destruct (K s eq_refl) as [_ Hk].
  unfold VideoStream._stream_loop_iteration. cbv zeta.
  destruct (negb (VideoStream.cap_opened i) && negb (VideoStream.connect_ok i));
    [discriminate|].
  simpl VideoStream.frame_skip.
  destruct (Z.eqb_spec (VideoStream.frame_skip s) 0) as [E|_]; [lia|].
  destruct (negb _); [discriminate|]. destruct (Qltb _ _); [discriminate|].
  destruct (VideoStream.read_result i); [|discriminate].
  destruct (enqueue _ _) as [[] q']; discriminate.
Qed.

Lemma filter_running_all (r : bool) (l : list VideoStream.t) :
  Forall (fun s => VideoStream.running s = r) l ->
  length (filter (fun s => VideoStream.running s = true) l)
  = if r then length l else 0%nat.
Proof.
  induction 1 as [|s l Hs _ IH]; [by destruct r|].
  rewrite filter_cons. destruct r.
  - rewrite decide_True by done. simpl. now rewrite IH.
  - rewrite decide_False by (rewrite Hs; discriminate). exact IH.
Qed.

(** X3.  A registered stream runs exactly when the manager runs: in every
    state reachable from [__init__] the [active_streams] figure of
    [get_stats] is the number of registered streams while the manager is
    running and 0 while it is not. *)
Theorem active_streams_all_or_none (cfg : Config) (now now' : Q) (es : list event) :
  let m := run cfg es (StreamManager.init cfg now) in
  (forall n s, StreamManager.streams m !! n = Some s ->
     VideoStream.running s = StreamManager.running m)
  /\ report_active_streams (get_stats now' m)
     = if StreamManager.running m
       then Z.of_nat (size (StreamManager.streams m)) else 0.
Proof.
  intros m.
  assert (H : streams_ok m) by apply run_streams_ok, init_streams_ok.
  split.
  { intros n s L. now destruct (H n s L) as (_ & R & _). }
  unfold get_stats; simpl.
  rewrite (filter_running_all (StreamManager.running m)).
  - rewrite length_fmap, length_map_to_list. now destruct (StreamManager.running m).
  - apply Forall_forall. intros s Hin.
    apply list_elem_of_fmap in Hin as [[n s'] [-> Hin]].
    apply elem_of_map_to_list in Hin. now destruct (H n s' Hin) as (_ & R & _).
Qed.

(** ** Invariants of the frames and of the counters *)

Lemma enqueue_Forall (P : frame_data -> Prop) q fd :
  Forall P (items q) -> P fd -> Forall P (items (enqueue q fd).2).
Proof.
  intros Hq Hfd. unfold enqueue, put_nowait, get_nowait.
  destruct (full q); simpl.
  - destruct (items q) as [|x rest] eqn:I; simpl; [now rewrite I|].
    inversion Hq; subst.
    destruct (full _); simpl; [done|]. apply Forall_app. split; [done|]. now constructor.
  - apply Forall_app. split; [done|]. now constructor.
Qed.

Lemma iteration_queue_frames cfg i s q :
  0 <= VideoStream.frame_count s ->
  Forall (frame_ok cfg) (items q) ->
  Forall (frame_ok cfg) (items (VideoStream._stream_loop_iteration cfg i s q).2).
Proof.
  intros Hc Hq. unfold VideoStream._stream_loop_iteration. cbv zeta.
  destruct (negb (VideoStream.cap_opened i) && negb (VideoStream.connect_ok i)); [done|].
  destruct (VideoStream.frame_skip _ =? 0); [done|].
  destruct (negb _); [done|]. destruct (Qltb _ _); [done|].
  destruct (VideoStream.read_result i) as [img|]; [|done].
  match goal with |- context [enqueue q ?fd] =>
    pose proof (enqueue_Forall (frame_ok cfg) q fd Hq) as E;
    destruct (enqueue q fd) as [o q1] end.
  simpl in E. assert (F : Forall (frame_ok cfg) (items q1)).
  { apply E. unfold frame_ok; simpl. repeat split; lia. }
  destruct o; exact F.
Qed.

Lemma step_frames_ok cfg m e :
  streams_ok m -> frames_ok cfg m -> frames_ok cfg (step cfg m e).
Proof.
  intros Hs F0. pose proof F0 as (Hq & Hp & Hf & Hd).
  destruct e as [c|n|cb| | |n|n i|]; simpl.
  - unfold StreamManager.add_stream. destruct (_ !! _); [done|].
    destruct (VideoStream.init c); done.
  - unfold StreamManager.remove_stream. destruct (_ !! _); done.
  - done.
  - unfold StreamManager.start. destruct (StreamManager.running m); [done|].
    unfold frames_ok, pending; simpl. auto.
  - unfold StreamManager.stop. destruct (StreamManager.running m); done.
  - unfold StreamManager.get_frame.
    destruct (match n with Some _ => _ | None => _ end); [done|].
    unfold get_nowait. destruct (items (StreamManager.frame_queue m)) as [|x rest] eqn:I;
      [done|]. inversion Hq; subst.
    unfold frames_ok, pending; simpl. auto.
  - unfold StreamManager.capture_step.
    destruct (StreamManager.streams m !! n) as [s|] eqn:L; [|done].
    destruct (VideoStream.running s) eqn:R; [|done].
    destruct (Hs n s L) as (_ & _ & _ & _ & _ & Hc).
    pose proof (iteration_queue_frames cfg i s _ Hc Hq) as It.
    destruct (VideoStream._stream_loop_iteration _ _ _ _) as [[o s1] q1].
    unfold frames_ok, pending; simpl. auto.
  - unfold StreamManager._processing_loop_step. unfold pending in Hp.
    destruct (StreamManager.processing_thread m) as [|batch|] eqn:T; [done| |done].
    destruct (StreamManager.running m).
    + unfold get_nowait.
      destruct (items (StreamManager.frame_queue m)) as [|x rest] eqn:I; [done|].
      inversion Hq; subst.
      assert (Hb : Forall (frame_ok cfg) (batch ++ [x])).
      { apply Forall_app. split; [done|]. now constructor. }
      destruct (_ <=? _).
      * match goal with |- context [StreamManager._process_batch ?b ?x] =>
          destruct (process_batch_effect b x)
            as (c & k & r & _ & _ & _ & Ef & Ed & _ & _ & _ & _ & _ & _ & Hc & _) end.
        unfold frames_ok, pending. simpl. rewrite process_batch_queue, Ef, Ed. simpl.
        repeat split; auto.
        -- apply Forall_app. split; [done|]. now constructor.
        -- apply Forall_app. split; [done|]. now apply Hc.
      * unfold frames_ok, pending. simpl. auto.
    + destruct batch as [|fd batch].
      { unfold frames_ok, pending. simpl. auto. }
      destruct (process_batch_effect (fd :: batch) m)
        as (c & k & r & _ & _ & _ & Ef & Ed & _ & _ & _ & _ & _ & _ & Hc & _).
      unfold frames_ok, pending. simpl. rewrite process_batch_queue, Ef, Ed.
      repeat split; auto.
      * apply Forall_app. split; [done|]. now constructor.
      * apply Forall_app. split; [done|]. now apply Hc.
Qed.

Lemma step_stats_ok cfg m e : stats_ok m -> stats_ok (step cfg m e).
Proof.
  unfold stats_ok. cbv zeta. intros (P0 & P1 & P2 & D0 & D1 & T).
  destruct e as [c|n|cb| | |n|n i|]; simpl.
  - unfold StreamManager.add_stream. destruct (_ !! _); [done|].
    destruct (VideoStream.init c); done.
  - unfold StreamManager.remove_stream. destruct (_ !! _); done.
  - done.
  - unfold StreamManager.start. destruct (StreamManager.running m); [done|].
    unfold pending in *; simpl. repeat split; auto; lia.
  - unfold StreamManager.stop. destruct (StreamManager.running m); done.
  - unfold StreamManager.get_frame.
    destruct (match n with Some _ => _ | None => _ end); [done|].
    destruct (get_nowait _) as [[fd q']|]; done.
  - unfold StreamManager.capture_step.
    destruct (StreamManager.streams m !! n) as [s|]; [|done].
    destruct (VideoStream.running s); [|done].
    destruct (VideoStream._stream_loop_iteration _ _ _ _) as [[o s1] q1]. done.
  - unfold StreamManager._processing_loop_step. unfold pending in *.
    destruct (StreamManager.processing_thread m) as [|batch|] eqn:T';
      [rewrite T'; done | | rewrite T'; done].
    destruct (StreamManager.running m).
    + destruct (get_nowait _) as [[fd q']|]; [|rewrite T'; done].
      destruct (_ <=? _).
      * match goal with |- context [StreamManager._process_batch ?b ?x] =>
          destruct (process_batch_effect b x)
            as (c & k & r & _ & _ & _ & Ef & Ed & Et & Ep & Er & K0 & K1 & K2 & _) end.
        simpl in *. rewrite Ef, Ed, Et, Ep, Er.
        rewrite concat_app, ?length_app in *. simpl in *.
        rewrite ?length_app in *. simpl in *. destruct r; repeat split; lia.
      * simpl. rewrite length_app. simpl. repeat split; lia.
    + destruct batch as [|fd batch]; simpl; [repeat split; lia|].
      destruct (process_batch_effect (fd :: batch) m)
        as (c & k & r & _ & _ & _ & Ef & Ed & Et & Ep & Er & K0 & K1 & K2 & _).
      simpl in *. rewrite Ef, Ed, Et, Ep, Er.
      rewrite concat_app, ?length_app in *. simpl in *.
      rewrite ?length_app in *. simpl in *. destruct r; repeat split; lia.
Qed.

Lemma run_frames_ok cfg es m :
  streams_ok m -> frames_ok cfg m -> frames_ok cfg (run cfg es m).
Proof.
  revert m. induction es as [|e es IH]; intros m S F; simpl; [done|].
  apply IH; [now apply step_streams_ok | now apply step_frames_ok].
Qed.

Lemma run_stats_ok cfg es m : stats_ok m -> stats_ok (run cfg es m).
Proof.
  revert m. induction es as [|e es IH]; intros m Q; simpl; [done|].
  apply IH, step_stats_ok, Q.
Qed.

Lemma init_frames_ok cfg now : frames_ok cfg (StreamManager.init cfg now).
Proof. unfold frames_ok, pending; simpl. auto. Qed.

Lemma init_stats_ok cfg now : stats_ok (StreamManager.init cfg now).
Proof. unfold stats_ok, pending; simpl. lia. Qed.

(** X4.  The counters never run ahead of the work done: in every state
    reachable from [__init__], [processed_frames] and [dropped_frames] are
    non-negative and at most [total_frames], [processed_frames] is at most
    the number of calls of the frame callback, and the frames flushed so
    far plus those in the accumulator are at most [total_frames]. *)
Theorem counters_bounded_by_total_frames (cfg : Config) (now : Q) (es : list event) :
  let m := run cfg es (StreamManager.init cfg now) in
  let st := StreamManager.stats m in
  0 <= processed_frames st <= total_frames st
  /\ 0 <= dropped_frames st <= total_frames st
  /\ processed_frames st <= Z.of_nat (length (StreamManager.dispatched m))
  /\ Z.of_nat (length (concat (StreamManager.flushed m)))
     + Z.of_nat (length (pending m)) <= total_frames st.
Proof.
  intros m st.
  destruct (run_stats_ok cfg es _ (init_stats_ok cfg now))
    as (P0 & P1 & P2 & D0 & D1 & T).
  fold m in P0, P1, P2, D0, D1, T. fold st in P0, P1, D0, D1, T. lia.
Qed.

(** X5.  Every frame that reaches the queue, the accumulator, a flushed
    batch or the frame callback has been resized to
    [RESIZE_WIDTH x RESIZE_HEIGHT] and carries a frame number of at
    least 1. *)
Theorem frames_have_processing_resolution (cfg : Config) (now : Q)
    (es : list event) (fd : frame_data) :
  let m := run cfg es (StreamManager.init cfg now) in
  fd ∈ items (StreamManager.frame_queue m) \/ fd ∈ pending m
  \/ fd ∈ concat (StreamManager.flushed m) \/ fd ∈ StreamManager.dispatched m ->
  width (frame fd) = RESIZE_WIDTH cfg /\ height (frame fd) = RESIZE_HEIGHT cfg
  /\ 1 <= frame_number fd.
Proof.
  intros m Hin.
  destruct (run_frames_ok cfg es _ (init_streams_ok cfg now) (init_frames_ok cfg now))
    as (Hq & Hp & Hf & Hd). fold m in Hq, Hp, Hf, Hd.
  rewrite Forall_forall in Hq, Hp, Hd.
  destruct Hin as [H|[H|[H|H]]];
    [exact (Hq _ H) | exact (Hp _ H) | | exact (Hd _ H)].
  apply list_elem_of_In, in_concat in H as (batch & Hb & Hfd).
  apply list_elem_of_In in Hb, Hfd.
  rewrite Forall_forall in Hf. specialize (Hf batch Hb).
  rewrite Forall_forall in Hf. exact (Hf _ Hfd).
Qed.

Lemma frames_have_processing_resolution_witness :
  example_frame 3 ∈ items (StreamManager.frame_queue third_capture.2)
  /\ width (frame (example_frame 3)) = 640
  /\ height (frame (example_frame 3)) = 480
  /\ 1 <= frame_number (example_frame 3).
Proof.
  assert (H : example_frame 3 ∈ items (StreamManager.frame_queue third_capture.2)).
  { vm_compute. apply list_elem_of_further, list_elem_of_here. }
  split; [exact H|].
  apply (frames_have_processing_resolution small_queue_config 0
           (two_frames_captured ++ [Capture "camera_0" (delivers 1002 3)])
           (example_frame 3)).
  left. exact H.
Defined.

(** ** Callbacks that raise, callbacks that never do *)

Lemma call_each_raises cb pre bad post :
  Forall (fun fd => cb fd = true) pre -> cb bad = false ->
  StreamManager.call_each cb (pre ++ bad :: post)
  = (pre ++ [bad], Z.of_nat (length pre), true).
Proof.
  intros Hpre Hbad. induction Hpre as [|fd pre Hfd _ IH]; simpl.
  - now rewrite Hbad.
  - rewrite Hfd, IH. f_equal. f_equal. lia.
Qed.

(** X6.  When the callback raises on a frame of a batch, the frames before
    it have been passed on and are counted in [processed_frames], the
    frames after it are never passed to the callback, and the whole batch,
    the frames already processed included, is added to [dropped_frames]. *)
Theorem failing_callback_counts_whole_batch (m : StreamManager.t) (cb : Callback)
    (pre post : list frame_data) (bad : frame_data) :
  StreamManager.frame_callback m = Some cb ->
  Forall (fun fd => cb fd = true) pre ->
  cb bad = false ->
  let m' := StreamManager._process_batch (pre ++ bad :: post) m in
  StreamManager.dispatched m' = StreamManager.dispatched m ++ pre ++ [bad]
  /\ processed_frames (StreamManager.stats m')
     = processed_frames (StreamManager.stats m) + Z.of_nat (length pre)
  /\ dropped_frames (StreamManager.stats m')
     = dropped_frames (StreamManager.stats m)
       + Z.of_nat (length pre + 1 + length post)
  /\ total_frames (StreamManager.stats m') = total_frames (StreamManager.stats m).
Proof.
  intros C Hpre Hbad. unfold StreamManager._process_batch. simpl. rewrite C.
  rewrite (call_each_raises cb pre bad post Hpre Hbad). simpl.
  repeat split. rewrite length_app. simpl. f_equal. lia.
Qed.

Lemma failing_callback_counts_whole_batch_witness :
  let m := StreamManager.set_frame_callback fails_on_third
             (StreamManager.init default_config 0) in
  let m' := StreamManager._process_batch
              [example_frame 1; example_frame 2; example_frame 3; example_frame 4] m in
  StreamManager.dispatched m' = [example_frame 1; example_frame 2; example_frame 3]
  /\ processed_frames (StreamManager.stats m') = 2
  /\ dropped_frames (StreamManager.stats m') = 4
  /\ total_frames (StreamManager.stats m') = 0.
Proof.
  apply (failing_callback_counts_whole_batch
           (StreamManager.set_frame_callback fails_on_third
              (StreamManager.init default_config 0))
           fails_on_third [example_frame 1; example_frame 2] [example_frame 4]
           (example_frame 3)); [reflexivity | repeat constructor | reflexivity].
Defined.

Lemma step_never_raised cfg m e :
  match e with
  | SetFrameCallback cb => forall fd, cb fd = true
  | _ => True
  end ->
  never_raised m -> never_raised (step cfg m e).
Proof.
  intros He N0. pose proof N0 as (Hcb & Hd & Hp).
  destruct e as [c|n|cb| | |n|n i|]; simpl.
  - unfold StreamManager.add_stream. destruct (_ !! _); [done|].
    destruct (VideoStream.init c); done.
  - unfold StreamManager.remove_stream. destruct (_ !! _); done.
  - unfold never_raised; simpl. split; [|done]. intros cb' [= <-]. exact He.
  - unfold StreamManager.start. destruct (StreamManager.running m); done.
  - unfold StreamManager.stop. destruct (StreamManager.running m); done.
  - unfold StreamManager.get_frame.
    destruct (match n with Some _ => _ | None => _ end); [done|].
    destruct (get_nowait _) as [[fd q']|]; done.
  - unfold StreamManager.capture_step.
    destruct (StreamManager.streams m !! n) as [s|]; [|done].
    destruct (VideoStream.running s); [|done].
    destruct (VideoStream._stream_loop_iteration _ _ _ _) as [[o s1] q1]. done.
  - assert (PB : forall batch m0,
              never_raised m0 -> never_raised (StreamManager._process_batch batch m0)).
    { intros batch m0 (Hcb0 & Hd0 & Hp0).
      destruct (process_batch_effect batch m0)
        as (c & k & r & _ & _ & Ec & _ & Ed & _ & Ep & Er & K0 & K1 & _ & _ & Hk).
      unfold never_raised. rewrite Ec, Ed, Ep, Er, length_app.
      destruct (StreamManager.frame_callback m0) as [cb|] eqn:C.
      - rewrite (call_each_all_return cb batch) in Hk
          by (apply Forall_forall; intros; now apply (Hcb0 cb)).
        injection Hk as <- <- <-. cbv iota. repeat split; [done | lia | lia].
      - destruct Hk as [-> ->]. simpl in *. repeat split; [done | lia | lia]. }
    unfold StreamManager._processing_loop_step.
    destruct (StreamManager.processing_thread m) as [|batch|]; [done| |done].
    destruct (StreamManager.running m).
    + destruct (get_nowait _) as [[fd q']|]; [|done].
      destruct (_ <=? _); [|done].
      match goal with |- context [StreamManager._process_batch ?b ?x] =>
        pose proof (PB b x) as (A & B & C) end; [done|].
      unfold never_raised. simpl. done.
    + destruct batch as [|fd batch]; [done|].
      pose proof (PB (fd :: batch) m N0) as (A & B & C).
      unfold never_raised. simpl. done.
Qed.

Lemma run_never_raised cfg es : forall m,
  callbacks_return es -> never_raised m -> never_raised (run cfg es m).
Proof.
  induction es as [|e es IH]; intros m Hes N0; simpl; [done|].
  inversion Hes; subst. apply IH; [done|]. now apply step_never_raised.
Qed.

Lemma main_callback_returns delay_ok sys fd :
  Main.frame_callback delay_ok sys fd = true.
Proof.
  unfold Main.frame_callback, Main._process_frame_callback.
  now destruct (delay_ok fd).
Qed.

(** X7.  As long as no registered callback raises (the callback of
    [main.py] never does, since it catches every exception),
    [dropped_frames] stays 0 in every state reachable from [__init__],
    whatever the queue evicted, and [processed_frames] is exactly the
    number of calls of the callback. *)
Theorem dropped_frames_stays_zero (cfg : Config) (now : Q) (es : list event) :
  callbacks_return es ->
  let m := run cfg es (StreamManager.init cfg now) in
  dropped_frames (StreamManager.stats m) = 0
  /\ processed_frames (StreamManager.stats m)
     = Z.of_nat (length (StreamManager.dispatched m)).
Proof.
  intros Hes m.
  assert (N0 : never_raised (StreamManager.init cfg now)).
  { unfold never_raised; simpl. repeat split; auto. discriminate. }
  now destruct (run_never_raised cfg es _ Hes N0) as (_ & D & P).
Qed.

Lemma dropped_frames_stays_zero_witness :
  callbacks_return main_like_events
  /\ dropped_frames
       (StreamManager.stats
          (run default_config main_like_events (StreamManager.init default_config 0)))
     = 0
  /\ processed_frames
       (StreamManager.stats
          (run default_config main_like_events (StreamManager.init default_config 0)))
     = 2.
Proof.
  assert (H : callbacks_return main_like_events).
  { unfold callbacks_return, main_like_events.
    repeat constructor. }
  split; [exact H|].
  destruct (dropped_frames_stays_zero default_config 0 main_like_events H) as [D P].
  split; [exact D|]. rewrite P. vm_compute. reflexivity.
Defined.

(** ** Registering and removing streams *)

(** X8.  [add_stream] followed by [remove_stream] of the same fresh name
    gives back the manager as it was; a second [add_stream] under a name
    already registered is refused and leaves the first stream, with its
    state, in place. *)
Theorem add_then_remove_stream (c c' : StreamConfig) (m : StreamManager.t) :
  StreamManager.streams m !! name c = None ->
  max_fps c <> 0 ->
  name c' = name c ->
  StreamManager.remove_stream (name c) (StreamManager.add_stream c m) = m
  /\ StreamManager.add_stream c' (StreamManager.add_stream c m)
     = StreamManager.add_stream c m
  /\ is_Some (StreamManager.streams (StreamManager.add_stream c m) !! name c).
Proof.
  intros Hfresh Hfps Hname.
  unfold StreamManager.add_stream at 1 3 4 5. rewrite Hfresh.
  unfold VideoStream.init. destruct (Z.eqb_spec (max_fps c) 0) as [|_]; [done|].
  match goal with |- context [StreamManager.set_streams (<[_ := ?s]> _) m] =>
    set (s0 := s) end.
  assert (L : StreamManager.streams
                (StreamManager.set_streams (<[name c := s0]> (StreamManager.streams m)) m)
              !! name c = Some s0) by (simpl; apply lookup_insert_eq).
  split; [|split].
  - unfold StreamManager.remove_stream. rewrite L. simpl.
    rewrite delete_insert_id by done. now destruct m.
  - unfold StreamManager.add_stream. rewrite Hname, L. reflexivity.
  - rewrite L. eauto.
Qed.

Lemma add_then_remove_stream_witness :
  StreamManager.remove_stream "camera_0"
    (StreamManager.add_stream camera_30 (StreamManager.init default_config 0))
  = StreamManager.init default_config 0
  /\ StreamManager.add_stream camera_15
       (StreamManager.add_stream camera_30 (StreamManager.init default_config 0))
     = StreamManager.add_stream camera_30 (StreamManager.init default_config 0)
  /\ is_Some (StreamManager.streams
                (StreamManager.add_stream camera_30 (StreamManager.init default_config 0))
              !! "camera_0").
Proof.
  apply (add_then_remove_stream camera_30 camera_15 (StreamManager.init default_config 0));
    [reflexivity | discriminate | reflexivity].
Defined.

(** X9.  [get_frame] with the name of a registered stream returns nothing
    and changes nothing, even when frames of that stream are queued; with
    no name, or a name that is not registered, it takes the oldest frame out
    of the shared queue, so that frame leaves the pipeline and the consumer
    will not see it. *)
Theorem get_frame_takes_from_consumer (m : StreamManager.t) (n : string)
    (fd : frame_data) (rest : list frame_data) :
  items (StreamManager.frame_queue m) = fd :: rest ->
  (n <> EmptyString -> is_Some (StreamManager.streams m !! n) ->
   StreamManager.get_frame (Some n) m = (None, m))
  /\ (StreamManager.streams m !! n = None ->
      StreamManager.get_frame (Some n) m = StreamManager.get_frame None m)
  /\ (StreamManager.get_frame None m).1 = Some fd
  /\ pipeline_contents (StreamManager.get_frame None m).2
     = concat (StreamManager.flushed m) ++ pending m ++ rest.
Proof.
  intros I. unfold StreamManager.get_frame, get_nowait. rewrite I.
  split; [|split; [|split]].
  - intros Hn Hs. rewrite bool_decide_eq_true_2 by done.
    destruct (String.eqb_spec n EmptyString); [done|]. reflexivity.
  - intros Hs. rewrite bool_decide_eq_false_2 by (rewrite Hs; apply is_Some_None).
    now rewrite andb_false_r.
  - reflexivity.
  - reflexivity.
Qed.

Lemma get_frame_takes_from_consumer_witness :
  StreamManager.get_frame (Some "camera_0") two_frames_buffered
  = (None, two_frames_buffered)
  /\ (StreamManager.get_frame None two_frames_buffered).1 = Some (example_frame 2)
  /\ pipeline_contents (StreamManager.get_frame None two_frames_buffered).2
     = [example_frame 1; example_frame 3].
Proof.
  destruct (get_frame_takes_from_consumer two_frames_buffered "camera_0"
              (example_frame 2) [example_frame 3]) as (A & _ & B & C);
    [vm_compute; reflexivity|].
  split; [apply A; [discriminate | vm_compute; eauto]|].
  split; [exact B|]. rewrite C. vm_compute. reflexivity.
Defined.

(** ** Rate of the frames a stream enqueues *)






Lemma sorted_multiples_count (k N : Z) (l : list Z) : forall lo,
  1 <= k -> lo mod k = 0 -> lo <= N ->
  StronglySorted Z.lt l ->
  Forall (fun n => lo < n <= N) l ->
  Forall (fun n => n mod k = 0) l ->
  lo + Z.of_nat (length l) * k <= N.
Proof.
  induction l as [|a l IH]; intros lo Hk Hlo HN Hs Hb Hm; simpl length.
  { lia. }
  inversion Hs as [|? ? Hs' Hlt]; subst. inversion Hb as [|? ? Ha Hb']; subst.
  inversion Hm as [|? ? Hma Hm']; subst.
  assert (Hstep : lo + k <= a).
  { apply Z.mod_divide in Hlo; [|lia]. apply Z.mod_divide in Hma; [|lia].
    destruct Hlo as [x ->]. destruct Hma as [y ->].
    assert (x < y) by nia. assert (x + 1 <= y) by lia. nia. }
  assert (IH' : a + Z.of_nat (length l) * k <= N).
  { apply IH; try done; [lia|].
    rewrite Forall_forall in Hlt, Hb'. apply Forall_forall. intros n Hn.
    specialize (Hlt n Hn). specialize (Hb' n Hn). lia. }
  lia.
Qed.

(** X11.  Frame skipping bounds the output of a stream: over any run of
    its loop, the number of frames it enqueued times [frame_skip] is at
    most the number of iterations that got past the connection check. *)
Theorem enqueued_at_most_one_in_frame_skip (cfg : Config) (c : StreamConfig)
    (s0 : VideoStream.t) (steps : list (VideoStream.iteration_input * FrameQueue)) :
  VideoStream.init c = Some s0 ->
  let r := VideoStream.run cfg steps (VideoStream.start s0) in
  Z.of_nat (length (omap VideoStream.enqueued_frame r.1)) * VideoStream.frame_skip s0
  <= Z.of_nat (length (filter (fun o => VideoStream.counted o = true) r.1)).
Proof.
  intros Hinit r.
  destruct (init_stream_ok c s0 Hinit) as (_ & _ & _ & Hk & _ & _).
  assert (H0 : VideoStream.frame_count s0 = 0).
  { unfold VideoStream.init in Hinit. destruct (max_fps c =? 0); [discriminate|].
    now injection Hinit as <-. }
  assert (Hstart : VideoStream.frame_count (VideoStream.start s0) = 0
                   /\ VideoStream.frame_skip (VideoStream.start s0)
                      = VideoStream.frame_skip s0).
  { unfold VideoStream.start. destruct (VideoStream.running s0); simpl; auto. }
  destruct Hstart as [Hc0 Hk0].
  destruct (run_frame_numbers cfg steps (VideoStream.start s0)) as (Kc & Kb & Ks).
  pose proof (run_multiples cfg steps (VideoStream.start s0)) as Km.
  fold r in Kc, Kb, Ks, Km. rewrite Hc0 in Kc, Kb. rewrite Hk0 in Km.
  assert (K1 : 1 <= VideoStream.frame_skip s0)
    by (rewrite Hk; unfold VideoStream.frame_skip_of; lia).
  assert (M0 : 0 mod VideoStream.frame_skip s0 = 0) by (apply Z.mod_0_l; lia).
  assert (N0 : 0 <= VideoStream.frame_count r.2) by lia.
  pose proof (sorted_multiples_count (VideoStream.frame_skip s0)
                (VideoStream.frame_count r.2) (VideoStream.enqueued_numbers r.1) 0
                K1 M0 N0 Ks Kb Km) as H.
  unfold VideoStream.enqueued_numbers in H. rewrite length_map in H. lia.
Qed.

Lemma enqueued_at_most_one_in_frame_skip_witness :
  Z.of_nat (length (omap VideoStream.enqueued_frame
                      (VideoStream.run default_config four_iterations
                         (VideoStream.start
                            (VideoStream.mk camera_15 false 0 (1 / inject_Z 15) 2 0))).1))
  * 2
  <= Z.of_nat (length (filter (fun o => VideoStream.counted o = true)
                         (VideoStream.run default_config four_iterations
                            (VideoStream.start
                               (VideoStream.mk camera_15 false 0 (1 / inject_Z 15) 2 0))).1)).
Proof.
  apply (enqueued_at_most_one_in_frame_skip default_config camera_15
           (VideoStream.mk camera_15 false 0 (1 / inject_Z 15) 2 0)
           four_iterations eq_refl).
Defined.

(** ** Camera URLs *)






(** ** The device index of an [rpi://] URL *)

Lemma pretty_N_char_digit (d : N) :
  (d < 10)%N -> Ascii.is_nat (pretty_N_char d) = Some (N.to_nat d).
Proof.
  intros H.
  assert (d = 0 \/ d = 1 \/ d = 2 \/ d = 3 \/ d = 4 \/ d = 5 \/ d = 6
          \/ d = 7 \/ d = 8 \/ d = 9)%N as Hd by lia.
  repeat (destruct Hd as [->|Hd]; [reflexivity|]). now subst.
Qed.

Lemma pretty_N_go_decimal (x : N) : forall s,
  string_forall decimal s = true -> string_forall decimal (pretty_N_go x s) = true.
Proof.
  induction (N.lt_wf_0 x) as [x _ IH]; intros s Hs.
  destruct (N.eq_dec x 0%N) as [->|Hx]; [now rewrite pretty_N_go_0|].
  rewrite pretty_N_go_step by lia. apply IH; [apply N.div_lt; lia|].
  simpl. rewrite Hs, andb_true_r. unfold decimal.
  now rewrite pretty_N_char_digit by (apply N.mod_lt; lia).
Qed.

Lemma pretty_N_go_parse (x : N) : forall s b,
  (0 < x)%N ->
  parse_digits (pretty_N_go x s) 0 b = parse_digits s (Z.of_N x) true.
Proof.
  induction (N.lt_wf_0 x) as [x _ IH]; intros s b Hx.
  rewrite pretty_N_go_step by done.
  assert (Hd : Ascii.is_nat (pretty_N_char (x `mod` 10)%N) = Some (N.to_nat (x `mod` 10)%N))
    by (apply pretty_N_char_digit, N.mod_lt; lia).
  assert (Hx10 : Z.of_N x = 10 * Z.of_N (x `div` 10)%N + Z.of_nat (N.to_nat (x `mod` 10)%N)).
  { rewrite N_nat_Z. rewrite (N.div_mod x 10%N) at 1 by lia. lia. }
  destruct (N.eq_dec (x `div` 10)%N 0%N) as [E|E].
  - rewrite E, pretty_N_go_0. simpl. rewrite Hd. f_equal. rewrite Hx10, E. lia.
  - rewrite IH; [|apply N.div_lt; [exact Hx | reflexivity]|now apply N.neq_0_lt_0].
    simpl. rewrite Hd. f_equal. lia.
Qed.

Lemma pretty_N_nonempty (x : N) :
  exists c rest, pretty x = String c rest /\ decimal c = true
                 /\ string_forall decimal rest = true.
Proof.
  assert (H : string_forall decimal (pretty x) = true).
  { unfold pretty, pretty_N. case_decide; [reflexivity|].
    now apply pretty_N_go_decimal. }
  destruct (pretty x) as [|c rest] eqn:E.
  - exfalso. unfold pretty, pretty_N in E. case_decide as Hx; [discriminate|].
    rewrite pretty_N_go_step in E by lia.
    assert (K : forall y s, pretty_N_go y s = EmptyString -> s = EmptyString).
    { intros y. induction (N.lt_wf_0 y) as [y _ IHy]; intros s Hs.
      destruct (N.eq_dec y 0%N) as [->|Hy]; [now rewrite pretty_N_go_0 in Hs|].
      rewrite pretty_N_go_step in Hs by lia.
      apply IHy in Hs; [discriminate | apply N.div_lt; lia]. }
    apply K in E. discriminate.
  - simpl in H. apply andb_true_iff in H as [H1 H2]. eauto.
Qed.

Lemma parse_pretty_N (x : N) : parse_digits (pretty x) 0 false = Some (Z.of_N x).
Proof.
  unfold pretty, pretty_N. case_decide as Hx; [now subst|].
  rewrite pretty_N_go_parse by lia. reflexivity.
Qed.

Lemma decimal_not_space c : decimal c = true -> py_isspace c = false.
Proof.
  unfold decimal, Ascii.is_nat, py_isspace.
  destruct c as [[] [] [] [] [] [] [] []]; simpl; congruence.
Qed.

Lemma decimal_not_special c :
  decimal c = true -> c <> ":"%char /\ c <> "+"%char /\ c <> "-"%char.
Proof.
  unfold decimal, Ascii.is_nat.
  destruct c as [[] [] [] [] [] [] [] []]; simpl; intros H; try discriminate;
    repeat split; discriminate.
Qed.

Lemma py_int_pretty_N (x : N) : py_int (pretty x) = Some (Z.of_N x).
Proof.
  destruct (pretty_N_nonempty x) as (c & rest & E & Hc & _).
  pose proof (parse_pretty_N x) as P. unfold py_int. rewrite E in *.
  simpl py_lstrip. rewrite (decimal_not_space c Hc).
  destruct (decimal_not_special c Hc) as (_ & Hp & Hm).
  destruct c as [[] [] [] [] [] [] [] []]; try exact P; congruence.
Qed.

Lemma py_int_pretty (z : Z) : py_int (pretty z) = Some z.
Proof.
  destruct z as [|p|p]; [reflexivity | apply (py_int_pretty_N (N.pos p)) |].
  change (pretty (Z.neg p)) with (String "-" (pretty (N.pos p))).
  unfold py_int. simpl py_lstrip. cbv beta iota. rewrite parse_pretty_N. reflexivity.
Qed.

Lemma string_app_empty_r (s : string) : s +:+ EmptyString = s.
Proof.
  induction s as [|a s IH]; [reflexivity|].
  change (String a s +:+ EmptyString) with (String a (s +:+ EmptyString)).
  now rewrite IH.
Qed.

Lemma rev_app_app (p s u : string) :
  String.rev_app p s +:+ u = String.rev_app p (s +:+ u).
Proof.
  revert s. induction p as [|a p IH]; intros s; simpl; [reflexivity|].
  now rewrite IH.
Qed.

Lemma split_no_colon (t : string) : forall piece,
  string_forall (fun c => negb (Ascii.eqb c ":")) t = true ->
  py_split_go "://" t 0 piece = [String.rev piece +:+ t].
Proof.
  induction t as [|c t IH]; intros piece H.
  { simpl. now rewrite string_app_empty_r. }
  simpl in H. apply andb_true_iff in H as [Hc Ht].
  cbn [py_split_go].
  change (String.prefix "://" (String c t))
    with (match ascii_dec ":" c with
          | left _ => String.prefix "//" t
          | right _ => false
          end).
  destruct (ascii_dec ":" c) as [<-|_]; [discriminate|].
  rewrite IH by done. f_equal. unfold String.rev. cbn [String.rev_app].
  rewrite !rev_app_app. reflexivity.
Qed.

Lemma pretty_Z_no_colon (z : Z) :
  string_forall (fun c => negb (Ascii.eqb c ":")) (pretty z) = true.
Proof.
  assert (H : forall s, string_forall decimal s = true ->
                string_forall (fun c => negb (Ascii.eqb c ":")) s = true).
  { induction s as [|c s IH]; simpl; [done|]. intros H.
    apply andb_true_iff in H as [Hc Hs]. rewrite IH by done.
    destruct (decimal_not_special c Hc) as (Hcol & _).
    destruct (Ascii.eqb_spec c ":"); [done|reflexivity]. }
  assert (HN : forall x : N, string_forall decimal (pretty x) = true).
  { intros x. unfold pretty, pretty_N. case_decide; [reflexivity|].
    now apply pretty_N_go_decimal. }
  destruct z as [|p|p]; [reflexivity | apply H, (HN (N.pos p)) |].
  change (pretty (Z.neg p)) with (String "-" (pretty (N.pos p))).
  simpl. apply H, (HN (N.pos p)).
Qed.

(** X13.  Every URL that [get_camera_urls] makes for a camera index is
    read back by [_connect] as that same device index: the URL starts with
    [rpi://], its part after [://] parses as the index, negative ones
    included, and is never taken for a stream address or rejected; so the
    streams of the configured indexes open the devices configured. *)
Theorem rpi_url_round_trip (rtsp : list string) (rpi : list Z) (k : nat) (index : Z) :
  rpi !! k = Some index ->
  get_camera_urls rtsp rpi !! (length rtsp + k)%nat = Some ("rpi://" +:+ pretty index)
  /\ _connect_target ("rpi://" +:+ pretty index) = Some (Device index).
Proof.
  intros Hk. split.
  - unfold get_camera_urls. rewrite lookup_app_r by lia.
    replace (length rtsp + k - length rtsp)%nat with k by lia.
    change (map ?f ?l) with (f <$> l). now rewrite list_lookup_fmap, Hk.
  - unfold _connect_target.
    change ("rpi://" +:+ pretty index)
      with (String "r" (String "p" (String "i" (String ":" (String "/"
              (String "/" (pretty index))))))).
    cbn [String.prefix ascii_dec ascii_rec ascii_rect bool_dec bool_rec bool_rect
         sumbool_rec sumbool_rect].
    unfold py_split. cbn [py_split_go String.prefix String.length Nat.sub
                          ascii_dec ascii_rec ascii_rect bool_dec bool_rec bool_rect
                          sumbool_rec sumbool_rect].
    rewrite (split_no_colon (pretty index) EmptyString (pretty_Z_no_colon index)).
    assert (P0 : forall s, String.prefix EmptyString s = true) by (now intros []).
    rewrite !P0.
    change (String.rev EmptyString +:+ pretty index) with (pretty index).
    simpl. now rewrite py_int_pretty.
Qed.

Lemma rpi_url_round_trip_witness :
  get_camera_urls ["rtsp://10.0.0.1/live"] [0; 7] !! 2%nat = Some "rpi://7"
  /\ _connect_target "rpi://7" = Some (Device 7).
Proof.
  apply (rpi_url_round_trip ["rtsp://10.0.0.1/live"] [0; 7] 1 7). reflexivity.
Defined.

(** ** What [process_frame] spawns *)

Lemma violations_le_faces (found : list Tasks.detection) :
  (length (filter (fun d => Tasks.is_no_mask d = true) found) <= length found)%nat.
Proof. apply length_filter. Qed.

Lemma process_frame_tasks (fd : frame_data) (found : list Tasks.detection) :
  let d := (Tasks.process_frame fd found).1 in
  Tasks.total_faces d = Z.of_nat (length found)
  /\ 0 <= Tasks.mask_violations d <= Tasks.total_faces d
  /\ (Tasks.process_frame fd found).2
     = (if Tasks.total_faces d =? 0 then [] else [Tasks.save_detection_task d])
       ++ (if Tasks.mask_violations d =? 0 then [] else [Tasks.send_alert_task d]).
Proof.
  pose proof (violations_le_faces found) as Hle.
  unfold Tasks.process_frame. cbv zeta. simpl.
  split; [reflexivity|]. split; [lia|].
  destruct found as [|x found]; [reflexivity|].
  change (Z.of_nat (length (x :: found)) =? 0) with (Z.of_nat (S (length found)) =? 0).
  destruct (Z.eqb_spec (Z.of_nat (S (length found))) 0) as [E|_]; [lia|].
  destruct (filter _ (x :: found)) as [|y ys]; reflexivity.
Qed.

(** X14.  The result of [process_frame] counts every detection as a face
    and the [no_mask] ones as violations, so
    [0 <= mask_violations <= total_faces]; a [save_detection] task is
    spawned exactly when there is a face, followed by a [send_alert] task
    exactly when there is a violation, both carrying that result: a frame
    without faces spawns nothing, and no alert goes without its save. *)
Theorem process_frame_spawns (fd : frame_data) (found : list Tasks.detection) :
  let d := (Tasks.process_frame fd found).1 in
  Tasks.total_faces d = Z.of_nat (length found)
  /\ 0 <= Tasks.mask_violations d <= Tasks.total_faces d
  /\ (Tasks.process_frame fd found).2
     = (if Tasks.total_faces d =? 0 then [] else [Tasks.save_detection_task d])
       ++ (if Tasks.mask_violations d =? 0 then [] else [Tasks.send_alert_task d]).
Proof. apply process_frame_tasks. Qed.

(** ** Compliance rates *)

Lemma round_half_even_bounds (y : Q) (n : Z) :
  (0 <= y)%Q -> (y <= inject_Z n)%Q -> 0 <= round_half_even y <= n.
Proof.
  intros H0 Hn.
  assert (F0 : 0 <= Qfloor y).
  { change 0 with (Qfloor 0). now apply Qfloor_resp_le. }
  assert (Fn : Qfloor y <= n).
  { rewrite <- (Qfloor_Z n). now apply Qfloor_resp_le. }
  unfold round_half_even. cbv zeta.
  destruct (Z.eq_dec (Qfloor y) n) as [E|E].
  - assert (L : (y - inject_Z (Qfloor y) < 1 # 2)%Q) by (rewrite E; lra).
    rewrite (proj1 (Qlt_alt _ _) L). lia.
  - destruct (_ ?= _)%Q; [destruct (Z.even _)| |]; lia.
Qed.

Lemma round2_bounds (x : Q) : (0 <= x <= 100)%Q -> (0 <= Tasks.round2 x <= 100)%Q.
Proof.
  intros [H0 H1]. unfold Tasks.round2.
  destruct (round_half_even_bounds (x * 100) 10000) as [L U]; [lra | change (inject_Z 10000) with 10000%Q; lra |].
  assert (L' : (0 <= inject_Z (round_half_even (x * 100)))%Q).
  { change 0%Q with (inject_Z 0). now rewrite <- Zle_Qle. }
  assert (U' : (inject_Z (round_half_even (x * 100)) <= 10000)%Q).
  { change 10000%Q with (inject_Z 10000). now rewrite <- Zle_Qle. }
  split.
  - apply Qle_shift_div_l; lra.
  - apply Qle_shift_div_r; lra.
Qed.

Lemma rate_bounds (faces violations : Z) :
  0 <= violations <= faces -> faces <> 0 ->
  (0 <= inject_Z (faces - violations) / inject_Z faces * 100 <= 100)%Q.
Proof.
  intros H Hne.
  assert (Hf : (0 < inject_Z faces)%Q).
  { change 0%Q with (inject_Z 0). rewrite <- Zlt_Qlt. lia. }
  assert (Hd : (0 <= inject_Z (faces - violations))%Q).
  { change 0%Q with (inject_Z 0). rewrite <- Zle_Qle. lia. }
  assert (Hu : (inject_Z (faces - violations) <= inject_Z faces)%Q).
  { rewrite <- Zle_Qle. lia. }
  assert (A : (0 <= inject_Z (faces - violations) / inject_Z faces)%Q).
  { apply Qle_shift_div_l; lra. }
  assert (B : (inject_Z (faces - violations) / inject_Z faces <= 1)%Q).
  { apply Qle_shift_div_r; lra. }
  split; lra.
Qed.

Lemma saved_rows_sums (frames : list (frame_data * list Tasks.detection)) :
  0 <= foldr Z.add 0 (map Tasks.mask_violations (saved_rows frames))
    <= foldr Z.add 0 (map Tasks.total_faces (saved_rows frames)).
Proof.
  induction frames as [|[fd found] frames IH]; [simpl; lia|].
  unfold saved_rows in *. cbn [flat_map]. rewrite !map_app, !foldr_app.
  set (rest := flat_map _ frames) in *.
  destruct (process_frame_tasks fd found) as (_ & Hb & Ht). rewrite Ht.
  set (d := (Tasks.process_frame fd found).1) in *.
  set (tf := Tasks.total_faces d) in *. set (mv := Tasks.mask_violations d) in *.
  assert (G : forall (l1 l2 : list Z) a, foldr Z.add a l1 = foldr Z.add 0 l1 + a).
  { induction l1 as [|x l1 IHl]; intros l2 a; simpl; [lia|]. rewrite (IHl l2 a). lia. }
  rewrite (G _ [] (foldr Z.add 0 (map Tasks.mask_violations rest))),
          (G _ [] (foldr Z.add 0 (map Tasks.total_faces rest))).
  destruct (Z.eqb_spec tf 0) as [E0|E0]; destruct (Z.eqb_spec mv 0) as [E1|E1];
    cbn [app omap list_omap map foldr]; fold tf mv; lia.
Qed.

(** X15.  Whatever frames were processed and whatever the detector found
    in them, the compliance rate computed from the sums of the saved rows
    is a percentage: [get_compliance_rate] returns a value between 0 and
    100, and exactly 100 when nothing was saved. *)
Theorem compliance_rate_is_a_percentage
    (frames : list (frame_data * list Tasks.detection)) :
  let rows := saved_rows frames in
  exists r : Q,
    get_compliance_rate (sql_sum (map Tasks.total_faces rows))
                        (sql_sum (map Tasks.mask_violations rows)) = Some r
    /\ (0 <= r <= 100)%Q
    /\ (rows = [] -> r = 100%Q).
Proof.
  intros rows. pose proof (saved_rows_sums frames) as Hs. fold rows in Hs.
  unfold get_compliance_rate, sql_sum. cbv zeta.
  destruct rows as [|d rows']; simpl map in *.
  { exists 100%Q. simpl. repeat split; lra. }
  set (f := foldr Z.add 0 (Tasks.total_faces d :: map Tasks.total_faces rows')) in *.
  set (v := foldr Z.add 0 (Tasks.mask_violations d :: map Tasks.mask_violations rows')) in *.
  cbn [Tasks.or_zero]. destruct (Z.eqb_spec f 0) as [E|E].
  { exists 100%Q. repeat split; try lra. }
  unfold Tasks.truediv. destruct (Z.eqb_spec f 0) as [|_]; [done|]. simpl.
  eexists. split; [reflexivity|]. split; [|discriminate].
  apply round2_bounds, rate_bounds; [lia | done].
Qed.

(** X16.  The compliance rate is computed in four places.  The report
    helper of [tasks.py], [get_compliance_rate] and the [compliance_rate]
    property of a detection row agree on every input; the expression of the
    web report agrees with them whenever the sum of faces is not zero, but
    for a missing or zero sum with no violation it gives 0 where the others
    give 100. *)
Theorem compliance_rates_agree (faces violations : option Z) :
  get_compliance_rate faces violations
  = Tasks._calculate_compliance_rate (Tasks.mkReportStats faces violations)
  /\ (forall f v : Z,
        detection_compliance_rate f v
        = Tasks._calculate_compliance_rate (Tasks.mkReportStats (Some f) (Some v)))
  /\ (forall f : Z, faces = Some f -> f <> 0 ->
        report_compliance_rate faces violations
        = Tasks._calculate_compliance_rate (Tasks.mkReportStats faces violations))
  /\ ((faces = None \/ faces = Some 0) ->
      (violations = None \/ violations = Some 0) ->
      Tasks._calculate_compliance_rate (Tasks.mkReportStats faces violations)
      = Some 100%Q
      /\ exists r, report_compliance_rate faces violations = Some r /\ (r == 0)%Q).
Proof.
  split; [|split; [|split]].
  - unfold get_compliance_rate, Tasks._calculate_compliance_rate; simpl.
    destruct faces as [f|]; simpl; [|reflexivity].
    destruct (f =? 0); reflexivity.
  - intros f v. unfold detection_compliance_rate, Tasks._calculate_compliance_rate; simpl.
    destruct (f =? 0); reflexivity.
  - intros f -> Hf.
    unfold report_compliance_rate, Tasks._calculate_compliance_rate, or_one; simpl.
    destruct (Z.eqb_spec f 0) as [|_]; [done|]. reflexivity.
  - intros [-> | ->] [-> | ->]; (split; [reflexivity|]);
      (eexists; split; [reflexivity|]); reflexivity.
Qed.

(** ** The MQTT client *)

(** X17.  The MQTT step of [send_alert] publishes nothing: [_send_mqtt_alert]
    builds a new client and calls [publish] on it without connecting, and
    [publish] on a client that is not connected returns [False] and hands
    nothing to the broker, whatever the detection. *)
Theorem mqtt_alert_is_never_published (client_ok sent : bool)
    (d : Tasks.detection_data) :
  (MQTT._send_mqtt_alert client_ok sent d).1 = false
  /\ MQTT.published (MQTT._send_mqtt_alert client_ok sent d).2 = []
  /\ forall tp p c, MQTT.is_connected c = false ->
       MQTT.publish sent tp p c = (false, c).
Proof.
  split; [reflexivity|]. split; [reflexivity|].
  intros tp p c H. unfold MQTT.publish. now rewrite H.
Qed.

Lemma mqtt_do_disconnected c x :
  MQTT.is_connected c = false ->
  match x with MQTT.CallOnConnect rc => rc <> 0 | _ => True end ->
  MQTT.is_connected (MQTT.do c x) = false
  /\ MQTT.published (MQTT.do c x) = MQTT.published c
  /\ MQTT.message_handlers (MQTT.do c x) = MQTT.message_handlers c
  /\ MQTT.invoked (MQTT.do c x) = MQTT.invoked c ++
       match x with
       | MQTT.CallOnMessage tp (Some d) =>
           match MQTT.message_handlers c !! tp with
           | Some handler => [(handler, d)]
           | None => []
           end
       | _ => []
       end.
Proof.
  intros H Hx. destruct x as [ok|rc|rc|sent tp p|ok tp h|tp data|ok]; simpl.
  - now rewrite app_nil_r.
  - unfold MQTT._on_connect. destruct (Z.eqb_spec rc 0); [done|].
    now rewrite app_nil_r.
  - now rewrite app_nil_r.
  - unfold MQTT.publish. rewrite H. simpl. now rewrite app_nil_r.
  - unfold MQTT.subscribe. rewrite H. simpl. now rewrite app_nil_r.
  - unfold MQTT._on_message. destruct data as [d|]; [|now rewrite app_nil_r].
    destruct (_ !! _); simpl; [done|]. now rewrite app_nil_r.
  - unfold MQTT.disconnect. rewrite H, andb_false_r. now rewrite app_nil_r.
Qed.

Lemma mqtt_silent (calls : list MQTT.call) :
  MQTT.never_accepted calls ->
  forall c0, MQTT.is_connected c0 = false -> MQTT.message_handlers c0 = ∅ ->
    MQTT.is_connected (foldl MQTT.do c0 calls) = false
    /\ MQTT.published (foldl MQTT.do c0 calls) = MQTT.published c0
    /\ MQTT.message_handlers (foldl MQTT.do c0 calls) = ∅
    /\ MQTT.invoked (foldl MQTT.do c0 calls) = MQTT.invoked c0.
Proof.
  induction 1 as [|x calls Hx _ IH]; intros c0 H0 M0; simpl; [done|].
  destruct (mqtt_do_disconnected c0 x H0 Hx) as (C & P & M & I).
  rewrite M0 in M. destruct (IH _ C M) as (A & B & D & E).
  rewrite P in B. rewrite E, I. repeat split; try done.
  destruct x as [ok|rc|rc|sent tp p|ok tp h|tp [d|]|ok]; try apply app_nil_r.
  rewrite M0, lookup_empty. apply app_nil_r.
Qed.

(** X18.  The handler registry: on a connected client whose library call
    succeeds, [subscribe] records the handler under its topic, replacing an
    earlier one, and a message on exactly that topic then calls it with the
    decoded payload, while the handlers of the other topics are untouched;
    on a client that is not connected [subscribe] returns [False] and
    records nothing; and a message on a topic without handler calls
    nothing. *)
Theorem mqtt_subscribe_then_message (c : MQTT.t) (tp : string) (handler : nat)
    (data : MQTT.payload) :
  (MQTT.is_connected c = true -> MQTT.client c = true ->
   let c' := (MQTT.subscribe true tp handler c).2 in
   (MQTT.subscribe true tp handler c).1 = true
   /\ MQTT.invoked (MQTT._on_message tp (Some data) c')
      = MQTT.invoked c ++ [(handler, data)]
   /\ forall tp', tp' <> tp ->
        MQTT.message_handlers c' !! tp' = MQTT.message_handlers c !! tp')
  /\ (forall lib_ok, MQTT.is_connected c = false ->
      MQTT.subscribe lib_ok tp handler c = (false, c))
  /\ (MQTT.message_handlers c !! tp = None ->
      MQTT._on_message tp (Some data) c = c).
Proof.
  split; [|split].
  - intros H H'. unfold MQTT.subscribe. rewrite H, H'. simpl.
    split; [reflexivity|]. split.
    + unfold MQTT._on_message. simpl. now rewrite lookup_insert_eq.
    + intros tp' Hne. now rewrite lookup_insert_ne.
  - intros lib_ok H. unfold MQTT.subscribe. now rewrite H.
  - intros H. unfold MQTT._on_message. now rewrite H.
Qed.

(** X19.  A client is silent until a broker has accepted a connection:
    along any sequence of calls on a new client in which no [_on_connect]
    came with return code 0, the client stays unconnected, nothing is
    published, no handler is registered and none is called, whatever the
    program publishes or subscribes meanwhile. *)
Theorem mqtt_silent_until_connected (client_ok : bool) (calls : list MQTT.call) :
  MQTT.never_accepted calls ->
  let c := foldl MQTT.do (MQTT.init client_ok) calls in
  MQTT.is_connected c = false
  /\ MQTT.published c = []
  /\ MQTT.message_handlers c = ∅
  /\ MQTT.invoked c = [].
Proof.
  intros H. now apply (mqtt_silent calls H (MQTT.init client_ok)).
Qed.

Lemma mqtt_silent_until_connected_witness :
  MQTT.published
    (foldl MQTT.do (MQTT.init true)
       [MQTT.CallConnect true; MQTT.CallOnConnect 5;
        MQTT.CallSubscribe true "face_mask/control/camera" 1;
        MQTT.CallPublish true "face_mask/status/system" (MQTT.Text "up")]) = [].
Proof.
  apply (mqtt_silent_until_connected true
           [MQTT.CallConnect true; MQTT.CallOnConnect 5;
            MQTT.CallSubscribe true "face_mask/control/camera" 1;
            MQTT.CallPublish true "face_mask/status/system" (MQTT.Text "up")]).
  repeat constructor. discriminate.
Defined.

(** ** The face detector *)




Lemma detect_all_cons found rest det :
  FaceDetector.detect_all (found :: rest) det
  = match FaceDetector.detect_faces found det with
    | Some (faces, det') =>
        (Some faces :: (FaceDetector.detect_all rest det').1,
         (FaceDetector.detect_all rest det').2)
    | None =>
        (None :: (FaceDetector.detect_all rest det).1,
         (FaceDetector.detect_all rest det).2)
    end.
Proof.
  simpl. destruct (FaceDetector.detect_faces found det) as [[faces det']|].
  - destruct (FaceDetector.detect_all rest det'). reflexivity.
  - destruct (FaceDetector.detect_all rest det). reflexivity.
Qed.

Lemma detect_all_skips (frames : list (option (list FaceDetector.face))) :
  forall (det : FaceDetector.t) (i : nat) (found : option (list FaceDetector.face)),
    FaceDetector.frame_skip det <> 0 ->
    frames !! i = Some found ->
    (FaceDetector.detect_all frames det).1 !! i
    = Some (Some (if (FaceDetector.frame_count det + Z.of_nat i)
                       mod FaceDetector.frame_skip det =? 0
                  then default [] found else [])).
Proof.
  induction frames as [|first rest IH]; intros det i found Hk Hi; [done|].
  rewrite detect_all_cons. unfold FaceDetector.detect_faces. cbv zeta.
  destruct (Z.eqb_spec (FaceDetector.frame_skip det) 0) as [E|_]; [done|].
  destruct i as [|i].
  - injection Hi as ->. rewrite Z.add_0_r.
    destruct (FaceDetector.frame_count det mod FaceDetector.frame_skip det =? 0);
      reflexivity.
  - change ((first :: rest) !! S i) with (rest !! i) in Hi.
    pose proof (IH (FaceDetector.mk (FaceDetector.confidence_threshold det)
                      (FaceDetector.frame_skip det) (FaceDetector.frame_count det + 1))
                  i found Hk Hi) as L.
    cbn [FaceDetector.frame_count FaceDetector.frame_skip] in L.
    replace (FaceDetector.frame_count det + 1 + Z.of_nat i)
      with (FaceDetector.frame_count det + Z.of_nat (S i)) in L by lia.
    destruct (negb _); exact L.
Qed.

(** X21.  The detector only looks at every [frame_skip]-th frame it is
    given: on a detector with a non-zero [frame_skip] that has seen no
    frame yet, the call number [i] (from 0) returns the faces found when
    [i] is a multiple of [frame_skip] and an empty list otherwise, whatever
    is in the frame; with [frame_skip] zero every call raises. *)
Theorem detector_skips_frames (frames : list (option (list FaceDetector.face)))
    (thr : Q) (k : Z) (i : nat) (found : option (list FaceDetector.face)) :
  frames !! i = Some found ->
  (k <> 0 ->
   (FaceDetector.detect_all frames (FaceDetector.mk thr k 0)).1 !! i
   = Some (Some (if Z.of_nat i mod k =? 0 then default [] found else [])))
  /\ (k = 0 ->
      (FaceDetector.detect_all frames (FaceDetector.mk thr k 0)).1 !! i = Some None).
Proof.
  intros Hi. split.
  - intros Hk.
    exact (detect_all_skips frames (FaceDetector.mk thr k 0) i found Hk Hi).
  - intros ->. revert i Hi.
    induction frames as [|first rest IH]; intros i Hi; [done|].
    rewrite detect_all_cons. simpl. destruct i as [|i]; [reflexivity|].
    exact (IH i Hi).
Qed.

Lemma detector_skips_frames_witness :
  (FaceDetector.detect_all
     [Some [FaceDetector.mkFace 0 0 10 10 (9 # 10)];
      Some [FaceDetector.mkFace 5 5 10 10 (9 # 10)];
      Some [FaceDetector.mkFace 9 9 10 10 (9 # 10)]]
     (FaceDetector.mk (8 # 10) 2 0)).1 !! 1%nat
  = Some (Some []).
Proof.
  apply (detector_skips_frames
           [Some [FaceDetector.mkFace 0 0 10 10 (9 # 10)];
            Some [FaceDetector.mkFace 5 5 10 10 (9 # 10)];
            Some [FaceDetector.mkFace 9 9 10 10 (9 # 10)]]
           (8 # 10) 2 1 (Some [FaceDetector.mkFace 5 5 10 10 (9 # 10)]));
    [reflexivity | lia].
Defined.

(** ** Uptime *)


(** ** Drop-oldest never refuses the new frame *)

(** X23.  On a queue that respects its capacity, the enqueue of the capture
    loop always ends with the new frame at the tail of the queue: the
    second [put_nowait] cannot raise and [get_nowait] cannot find the
    queue empty; the queue keeps its other frames, minus the oldest one
    exactly when it was full, so a bounded queue ends with
    [min (qsize + 1) maxsize] frames. *)
Theorem enqueue_always_accepts (q : FrameQueue) (fd : frame_data) :
  within_capacity q ->
  enqueued (enqueue q fd).1 = true
  /\ items (enqueue q fd).2
     = (if full q then tail (items q) else items q) ++ [fd]
  /\ (0 < maxsize q ->
      qsize (enqueue q fd).2 = Z.min (qsize q + 1) (maxsize q)).
Proof.
  intros W. unfold within_capacity in W.
  destruct (full q) eqn:F.
  - apply full_spec in F as F0. destruct F0 as [Hpos Hfull]. pose proof (W Hpos) as Hle.
    destruct (items q) as [|x rest] eqn:I.
    { unfold qsize in *. rewrite I in *. simpl in *. lia. }
    assert (F' : full (mkQueue (maxsize q) rest) = false).
    { apply not_true_iff_false. rewrite full_spec. unfold qsize in *.
      rewrite I in *. simpl in *. lia. }
    assert (E : enqueue q fd
                = (InsertedAfterEviction x, mkQueue (maxsize q) (rest ++ [fd]))).
    { unfold enqueue, put_nowait, get_nowait. rewrite F, I.
      cbn [maxsize items]. now rewrite F'. }
    rewrite E. simpl. split; [reflexivity|]. split; [reflexivity|]. intros _.
    unfold qsize in *. simpl. rewrite I in *. rewrite length_app. simpl in *. lia.
  - assert (E : enqueue q fd = (Inserted, mkQueue (maxsize q) (items q ++ [fd]))).
    { unfold enqueue, put_nowait. now rewrite F. }
    rewrite E. simpl. split; [reflexivity|]. split; [reflexivity|]. intros Hpos.
    apply not_true_iff_false in F. rewrite full_spec in F.
    unfold qsize in *. simpl. rewrite length_app. simpl. lia.
Qed.

Lemma enqueue_always_accepts_witness :
  enqueued (enqueue (mkQueue 2 [example_frame 1; example_frame 2]) (example_frame 3)).1
  = true
  /\ items (enqueue (mkQueue 2 [example_frame 1; example_frame 2]) (example_frame 3)).2
     = [example_frame 2; example_frame 3].
Proof.
  destruct (enqueue_always_accepts (mkQueue 2 [example_frame 1; example_frame 2])
              (example_frame 3)) as (A & B & _).
  { intros _. unfold qsize. simpl. lia. }
  split; [exact A | exact B].
Defined.
